(** * Recathon recommender management in [tcop/utility.c]

    A shallow embedding of the two statement handlers that the Recathon
    extension adds to PostgreSQL's [standard_ProcessUtility]
    ([T_CreateRStmt] and [T_DropRecStmt]) and of the three model builders
    [itemSimilarity], [userSimilarity] and [SVDSimilarity].

    The handlers talk to the relational engine through a handful of calls
    ([recathon_utilityExecute], [recathon_queryExecute],
    [recathon_queryStart], [relationExists], ...) that are declared in
    [utils/recathon.h].  Their bodies are not part of [utility.c]; they are
    modelled below from the interface the specification gives for them and
    each such definition says so in its comment.

    The handlers build every statement as text, with [sprintf] and
    [strncat] into buffers of fixed size, and paste names and values into it
    as they are.  The statements are kept as syntax trees here; the text is
    kept beside them for its length, and a string pasted between quotes is
    kept as pasted, for the engine to read. *)

From stdpp Require Import gmap strings list fin_maps pretty.
From Stdlib Require Import ZArith Ascii String.
From Stdlib.Floats Require Import SpecFloat.

Open Scope string_scope.
Open Scope list_scope.
Open Scope Z_scope.
Open Scope nat_scope.
Open Scope stdpp_scope.

(** ** Strings: case folding and [printf] conversions *)

Module Str.

(** C's [tolower] in the "C" locale: only ['A'..'Z'] are changed. *)
Definition tolower (c : ascii) : ascii :=
  let n := nat_of_ascii c in
  if (65 <=? n) && (n <=? 90) then ascii_of_nat (n + 32) else c.

(** The loop [for (i = 0; i < strlen(s); i++) s[i] = tolower(s[i]);]. *)
Fixpoint lower (s : string) : string :=
  match s with
  | EmptyString => EmptyString
  | String c s' => String (tolower c) (lower s')
  end.

(** Conversion [%ld] (and [%d]) of [printf]. *)
Definition fmt_ld (z : Z) : string := pretty z.

Fixpoint last_char (s : string) : option ascii :=
  match s with
  | EmptyString => None
  | String c EmptyString => Some c
  | String _ s' => last_char s'
  end.

Definition is_digit (c : ascii) : bool :=
  let n := nat_of_ascii c in (48 <=? n) && (n <=? 57).

End Str.

(** ** SQL text: what is read where the handlers paste a string *)

Module Sql.

Definition quote : ascii := "'"%char.

(** Modelled from the spec: the engine is handed text ([executeDML(text)],
    §6), and the handlers print a string [s] into it as ['%s'].  What is
    read there is SQL's string constant: the text up to the closing quote,
    a doubled quote standing for one quote.  [None]: a quote of [s] that is
    not doubled closes the constant early, and what follows it is no part
    of the value. *)
Fixpoint unquote (s : string) : option string :=
  match s with
  | EmptyString => Some EmptyString
  | String c s' =>
      if bool_decide (c = quote) then
        match s' with
        | String c' s'' =>
            if bool_decide (c' = quote) then String quote <$> unquote s'' else None
        | EmptyString => None
        end
      else String c <$> unquote s'
  end.

Definition letter (c : ascii) : bool :=
  let n := nat_of_ascii c in
  ((65 <=? n) && (n <=? 90)) || ((97 <=? n) && (n <=? 122)) || (n =? 95) || (128 <=? n).

Definition name_char (c : ascii) : bool :=
  letter c || Str.is_digit c || (nat_of_ascii c =? 36).

Fixpoint all_chars (p : ascii → bool) (s : string) : bool :=
  match s with
  | EmptyString => true
  | String c s' => p c && all_chars p s'
  end.


(** Modelled from the spec: a name the handlers print into a statement
    with a bare [%s] is read as that name only when it is an identifier as
    SQL writes one without quotes: a letter or underscore, then letters,
    digits, underscores and dollar signs. *)
Definition identifier (s : string) : bool :=
  match s with
  | EmptyString => false
  | String c s' => letter c && all_chars name_char s'
  end.

End Sql.

(** ** The relational data the handlers exchange with the engine *)

Inductive sqltype := SERIAL | INTEGER | REAL | VARCHAR | BOOLEAN | TIMESTAMP.

(** Value expressions as they occur in the [VALUES] lists the handlers
    print, and as values stored in rows. *)
Inductive sqlval :=
| VDefault                        (* [default] *)
| VLocalTimestamp                 (* [localtimestamp] *)
| VInt (z : Z)                    (* [%d] and integer literals *)
| VReal (mantissa : Z) (scale : nat)   (* decimal literal, e.g. [0.5] = 5 / 10^1 *)
| VBool (b : bool)
| VStr (s : string)               (* a character string, as a row holds it *)
| VQuoted (s : string).           (* ['%s'] as printed: [s] pasted between quotes *)

Global Instance sqltype_eq_dec : EqDecision sqltype.
Proof. solve_decision. Defined.
Global Instance sqlval_eq_dec : EqDecision sqlval.
Proof. solve_decision. Defined.

Definition tuple := list sqlval.

Record table := mkTable {
  tcols : list (string * sqltype);   (* column names, in declaration order *)
  tpkey : list string;
  trows : list tuple
}.

(** What a cursor hands out: the values of one result row keyed by column
    name ([TupleTableSlot] with its descriptor). *)
Definition slot := list (string * sqlval).

Inductive utility_stmt :=
| CREATE_TABLE (if_not_exists : bool) (name : string)
               (cols : list (string * sqltype)) (pkey : list string)
| DROP_TABLE (name : string).

Inductive dml_stmt :=
| INSERT_INTO (name : string) (vals : tuple)
| DELETE_WHERE (name : string) (col : string) (lit : string).

Inductive select_stmt :=
| SELECT_DISTINCT (cols : list string) (from : string)
| SELECT_STAR (from : string).

(** ** Errors and reports *)

Inductive sqlstate :=
| ERRCODE_INVALID_SCHEMA_NAME
| ERRCODE_CASE_NOT_FOUND
| ERRCODE_DUPLICATE_TABLE
| ERRCODE_UNDEFINED_TABLE
| ERRCODE_UNDEFINED_COLUMN
| ERRCODE_SYNTAX_ERROR
| ERRCODE_EXTERNAL_ROUTINE_EXCEPTION
| SIGSEGV.

Record error := mkError { errcode : sqlstate; errmsg : string }.

Inductive elevel := NOTICE | WARNING.

(** ** The modelling backend *)

Record timeval := mkTimeval { tv_sec : Z; tv_usec : Z }.

Inductive recMethod := itemCosCF | itemPearCF | userCosCF | userPearCF | SVD.

Global Instance recMethod_eq_dec : EqDecision recMethod.
Proof. solve_decision. Defined.

(** The arrays the CF builders obtain once and hand to every populate
    call.  [StatsUnset] stands for the locals left uninitialised when the
    method selects neither precomputation. *)
Inductive stats :=
| StatsUnset
| StatsCos (num : Z) (ids : list Z) (lengths : list spec_float)
| StatsPear (num : Z) (ids : list Z) (avgs pearsons : list spec_float).

(** Arguments of one populate call. *)
Record populate_call := mkCall {
  pc_usertable : string;  pc_itemtable : string;  pc_ratingtable : string;
  pc_userkey : string;    pc_itemkey : string;    pc_ratingval : string;
  pc_models : list string;
  pc_numatts : Z;
  pc_attnames : option (list string);
  pc_attvalues : option (list string);
  pc_stats : stats
}.

Inductive stats_fn := Fvector_lengths | Fpearson_info.
Inductive populate_fn :=
| FupdateItemCosModel | FupdateItemPearModel
| FupdateUserCosModel | FupdateUserPearModel
| FSVDsimilarity.

(** The numeric routines of [recathon.h].  They are black boxes here: a
    statistics routine reads the tables and returns its arrays; a populate
    routine reads the tables and returns the number of ratings used and the
    rows it writes into each target model table, or [None] when it fails. *)
Class ModelingBackend := {
  vector_lengths : string → string → string → string →
                   gmap string table → Z * list Z * list spec_float;
  pearson_info : string → string → string → string →
                 gmap string table → Z * list Z * list spec_float * list spec_float;
  updateItemCosModel : populate_call → gmap string table → option (Z * list tuple);
  updateItemPearModel : populate_call → gmap string table → option (Z * list tuple);
  updateUserCosModel : populate_call → gmap string table → option (Z * list tuple);
  updateUserPearModel : populate_call → gmap string table → option (Z * list tuple);
  SVDsimilarity : populate_call → gmap string table →
                  option (Z * list tuple * list tuple)
}.

(** ** The world the handlers run in *)

Inductive event :=
| EvUtility (s : utility_stmt)           (* [recathon_utilityExecute] *)
| EvQuery (s : dml_stmt)                 (* [recathon_queryExecute] *)
| EvCursor (q : select_stmt)             (* [recathon_queryStart] *)
| EvClock (t : timeval)                  (* [gettimeofday] *)
| EvPrecompute (f : stats_fn) (tbl key ratingtable ratingval : string) (r : stats)
| EvPopulate (f : populate_fn) (c : populate_call) (numRatings : Z)
| EvReport (l : elevel) (e : error).     (* [ereport] below [ERROR] *)

Record World := mkWorld {
  tables : gmap string table;   (* the catalog, keyed by folded relation name *)
  ticks : nat;                  (* clock reads made so far *)
  log : list event              (* calls made so far, oldest first *)
}.

(** A handler either returns or is cut short by [ereport(ERROR, ...)];
    either way the world it leaves behind is kept (statements are issued
    one by one, nothing is rolled back by the handlers). *)
Inductive outcome (A : Type) :=
| Ok (a : A) (w : World)
| Fatal (e : error) (w : World).
Arguments Ok {A} a w.
Arguments Fatal {A} e w.

Definition M (A : Type) := World → outcome A.

Global Instance M_ret : MRet M := fun A (a : A) w => Ok a w.
Global Instance M_bind : MBind M := fun A B (k : A → M B) (m : M A) w =>
  match m w with
  | Ok a w' => k a w'
  | Fatal e w' => Fatal e w'
  end.
Definition ereport_ERROR {A} (c : sqlstate) (msg : string) : M A :=
  fun w => Fatal (mkError c msg) w.

Definition final {A} (o : outcome A) : World :=
  match o with Ok _ w => w | Fatal _ w => w end.

Definition emit (e : event) : M unit :=
  fun w => Ok tt (mkWorld (tables w) (ticks w) (log w ++ [e])).
Definition set_tables (T : gmap string table) : M unit :=
  fun w => Ok tt (mkWorld T (ticks w) (log w)).
Definition get_tables : M (gmap string table) := fun w => Ok (tables w) w.

Definition ereport (l : elevel) (c : sqlstate) (msg : string) : M unit :=
  emit (EvReport l (mkError c msg)).

(** [sprintf], and [strncat] of a whole string, into a buffer of [size]
    bytes: [text] is what the buffer holds afterwards, and it takes one
    more byte for the terminating zero.  Writing past the end of the buffer
    has no defined outcome in C; the run is cut there. *)
Definition sprintf (size : nat) (text : string) : M unit :=
  if bool_decide (String.length text < size) then mret tt
  else ereport_ERROR SIGSEGV "buffer overrun".

(** ** The relational engine

    The bodies of the engine entry points of [recathon.h] are outside
    [utility.c].  Statements are kept as syntax trees instead of the
    [sprintf]-built text; the engine folds relation and column identifiers
    to lower case, which is what lets the build handler create
    [<name>Index] and the drop handler query [<name>index]. *)

Definition colnames (t : table) : list string := (tcols t).*1.

Definition slot_of (t : table) (r : tuple) : slot := zip (colnames t) r.

Fixpoint assoc (c : string) (sl : slot) : option sqlval :=
  match sl with
  | [] => None
  | (k, v) :: sl' => if bool_decide (k = c) then Some v else assoc c sl'
  end.

Definition project (cols : list string) (sl : slot) : slot :=
  omap (fun c => (fun v => (c, v)) <$> assoc c sl) cols.

Definition sql_text (v : sqlval) : string :=
  match v with
  | VDefault => "default"
  | VLocalTimestamp => "localtimestamp"
  | VInt z => pretty z
  | VReal m s => pretty m +:+ "e-" +:+ pretty s
  | VBool b => if b then "t" else "f"
  | VStr s => s
  | VQuoted s => "'" +:+ s +:+ "'"
  end.

(** Modelled from the spec: the value the engine reads from one entry of
    a [VALUES] list.  A string pasted between quotes is read as SQL's
    string constant; the other entries stand for themselves. *)
Definition read_value (v : sqlval) : option sqlval :=
  match v with
  | VQuoted s => VStr <$> Sql.unquote s
  | _ => Some v
  end.

Definition fold_cols (cols : list (string * sqltype)) : list (string * sqltype) :=
  map (fun c => (Str.lower c.1, c.2)) cols.

(** Modelled from the spec: [getTupleString] of [recathon.h], the textual
    representation of the value a result row holds for a named column
    (§4.1 "values are returned as their textual representation keyed by
    attribute name"); [None] is the C [NULL] for a column the row lacks. *)
Definition getTupleString (sl : slot) (attname : string) : option string :=
  sql_text <$> assoc attname sl.

(** Modelled from the spec: [relationExists] of [recathon.h], the
    [tableExists(name) → bool] of §6.  The handlers pass it names that are
    already in lower case. *)
Definition relationExists (relname : string) : M bool :=
  fun w => Ok (bool_decide (is_Some (tables w !! relname))) w.

(** Modelled from the spec: [recathon_utilityExecute] of [recathon.h], the
    [executeDDL(text)] of §6.  A failing statement is a backend failure and
    is fatal (§7), with the exception §4.4 step 3 and §9 make for [DROP]:
    drops are "idempotent per-artifact" and "one artifact failing does not
    abort the loop", so dropping an absent table is reported and
    otherwise does nothing.  [CREATE TABLE] of a name already in the catalog
    fails unless it says [IF NOT EXISTS].  The statement reaches the engine
    as text with the table and column names pasted in bare: when one of
    them is no identifier the text is not this statement, and is rejected
    (no relation comes to exist under such a name). *)
Definition recathon_utilityExecute (s : utility_stmt) : M unit :=
  emit (EvUtility s);;
  T ← get_tables;
  match s with
  | CREATE_TABLE ine name cols pkey =>
      if negb (Sql.identifier name && forallb Sql.identifier (cols.*1 ++ pkey))
      then ereport_ERROR ERRCODE_SYNTAX_ERROR "syntax error"
      else
      match T !! Str.lower name with
      | Some _ =>
          if ine
          then ereport NOTICE ERRCODE_DUPLICATE_TABLE "relation already exists, skipping"
          else ereport_ERROR ERRCODE_DUPLICATE_TABLE "relation already exists"
      | None =>
          set_tables (<[Str.lower name :=
                          mkTable (fold_cols cols) (map Str.lower pkey) []]> T)
      end
  | DROP_TABLE name =>
      match T !! Str.lower name with
      | Some _ => set_tables (delete (Str.lower name) T)
      | None => ereport WARNING ERRCODE_UNDEFINED_TABLE "table does not exist"
      end
  end.

Definition row_matches (t : table) (col lit : string) (r : tuple) : bool :=
  bool_decide (assoc col (slot_of t r) = Some (VStr lit)).

(** Modelled from the spec: [recathon_queryExecute] of [recathon.h], the
    [executeDML(text)] of §6; a failing statement is fatal (§7).  [INSERT]
    appends one row, the values as read from the [VALUES] list, and needs
    one value per column; a list with an entry that cannot be read is
    rejected.  [DELETE ... WHERE col = 'lit'] removes the rows whose column
    holds that string. *)
Definition recathon_queryExecute (s : dml_stmt) : M unit :=
  emit (EvQuery s);;
  T ← get_tables;
  match s with
  | INSERT_INTO name vals =>
      match mapM read_value vals with
      | None => ereport_ERROR ERRCODE_SYNTAX_ERROR "syntax error"
      | Some row =>
      match T !! Str.lower name with
      | Some t =>
          if List.length row =? List.length (tcols t)
          then set_tables (<[Str.lower name :=
                               mkTable (tcols t) (tpkey t) (trows t ++ [row])]> T)
          else ereport_ERROR ERRCODE_SYNTAX_ERROR "INSERT has a wrong number of expressions"
      | None => ereport_ERROR ERRCODE_UNDEFINED_TABLE "relation does not exist"
      end
      end
  | DELETE_WHERE name col lit =>
      match T !! Str.lower name with
      | Some t =>
          if bool_decide (Str.lower col ∈ colnames t)
          then set_tables (<[Str.lower name :=
                 mkTable (tcols t) (tpkey t)
                   (filter (fun r => row_matches t (Str.lower col) lit r = false)
                           (trows t))]> T)
          else ereport_ERROR ERRCODE_UNDEFINED_COLUMN "column does not exist"
      | None => ereport_ERROR ERRCODE_UNDEFINED_TABLE "relation does not exist"
      end
  end.

Definition select_distinct (cols : list string) (t : table) : list slot :=
  remove_dups (map (fun r => project (map Str.lower cols) (slot_of t r)) (trows t)).

(** Modelled from the spec: [recathon_queryStart] followed by the
    [ExecProcNode] calls that drain the plan, the [openCursor(text) →
    RowIterator] of §6.  The rows are those present when the cursor is
    opened; [SELECT DISTINCT] is the duplicate-free projection of §4.1.  A
    query on a missing table or column is fatal (§4.1). *)
Definition recathon_queryStart (q : select_stmt) : M (list slot) :=
  emit (EvCursor q);;
  T ← get_tables;
  match q with
  | SELECT_STAR from =>
      match T !! Str.lower from with
      | Some t => mret (map (slot_of t) (trows t))
      | None => ereport_ERROR ERRCODE_UNDEFINED_TABLE "relation does not exist"
      end
  | SELECT_DISTINCT cols from =>
      match T !! Str.lower from with
      | Some t =>
          if forallb (fun c => bool_decide (Str.lower c ∈ colnames t)) cols
          then mret (select_distinct cols t)
          else ereport_ERROR ERRCODE_UNDEFINED_COLUMN "column does not exist"
      | None => ereport_ERROR ERRCODE_UNDEFINED_TABLE "relation does not exist"
      end
  end.

Definition recathon_queryEnd : M unit := mret tt.

(** The rows of the recommender-list table that carry a given index-table
    name. *)
Definition catalogue_rows (recindexname : string) (T : gmap string table) : list slot :=
  match T !! "recmodelscatalogue" with
  | Some t =>
      filter (fun sl => assoc "recommenderindexname" sl = Some (VStr recindexname))
             (map (slot_of t) (trows t))
  | None => []
  end.

(** Modelled from the spec: [recommenderExists] of [recathon.h], the
    catalog lookup [recommenderExists(name) → bool] of §6; a recommender is
    "identified uniquely by its index-table name" (§3). *)
Definition recommenderExists (recname : string) : M bool :=
  fun w => Ok (bool_decide (catalogue_rows (recname +:+ "Index") (tables w) ≠ [])) w.

(** Modelled from the spec: [getRecInfo] of [recathon.h] asked for the
    method only, the [fetchAlgorithmFamily(indexTableName) → family] of §6:
    the method recorded in the recommender-list row of that index table. *)
Definition getRecInfo (recindexname : string) : M string :=
  fun w => match catalogue_rows recindexname (tables w) with
           | sl :: _ =>
               match getTupleString sl "method" with
               | Some m => Ok m w
               | None => Fatal (mkError ERRCODE_UNDEFINED_COLUMN "column does not exist") w
               end
           | [] => Fatal (mkError ERRCODE_INVALID_SCHEMA_NAME "recommender does not exist") w
           end.

(** A [for] loop whose body may be cut short by an error. *)
Fixpoint for_each {A} (body : A → M unit) (xs : list A) : M unit :=
  match xs with
  | [] => mret tt
  | x :: xs' => body x;; for_each body xs'
  end.

(** ** Statements *)

Record RangeVar := mkRangeVar { relname : string }.

Record CreateRStmt := mkCreateRStmt {
  relation : RangeVar;
  usertable : RangeVar;
  itemtable : RangeVar;
  ratingtable : RangeVar;
  userkey : string;
  itemkey : string;
  ratingval : string;
  method : string
}.

(** [recStmt->method], the method as the statement spells it; the handlers
    also keep the decoded [recMethod] in a local called [method]. *)
Definition method_text (recStmt : CreateRStmt) : string := method recStmt.

Record DropRecStmt := mkDropRecStmt { recommender : RangeVar }.

Inductive Node :=
| T_CreateRStmt (recStmt : CreateRStmt)
| T_DropRecStmt (dropstmt : DropRecStmt).

(** [struct cell_node_t] without its [next] link; [None] is [NULL]. *)
Record cell_node := mkCell {
  modelname1 : option string;
  modelname2 : option string;
  viewname : option string
}.

(** The three builder functions. *)
Inductive family := ItemCF | UserCF | SVDfam.

Section Recathon.

Context `{ModelingBackend}.

(** The system clock: the value the [n]-th call of [gettimeofday]
    returns. *)
Variable wall_clock : nat → timeval.

(** [validateCreateRStmt] of [recathon.h]: the sanity checks.  Its body
    is outside [utility.c]; following §7 ("validation errors are surfaced
    before any artifact is created", "no side effects") it only reads the
    catalog, and either reports an error or returns the attribute list,
    the method and the number of attributes. *)
Variable validateCreateRStmt :
  CreateRStmt → gmap string table → error + (list string * recMethod * Z).

Definition gettimeofday : M timeval :=
  fun w => let t := wall_clock (ticks w) in
           Ok t (mkWorld (tables w) (S (ticks w)) (log w ++ [EvClock t])).

(** *** Names *)

(** The conversions ["%ld%ld"] applied to [tv_sec] and [tv_usec]. *)
Definition stamp (ts : timeval) : string :=
  Str.fmt_ld (tv_sec ts) +:+ Str.fmt_ld (tv_usec ts).

Definition index_name (base : string) : string := base +:+ "Index".
Definition view_name (base : string) (ts : timeval) : string :=
  base +:+ "View" +:+ stamp ts.

(** The model tables of one cell, with the schema each is created with:
    ["%sModel%ld%ld"] for the two CF builders, ["%sUserModel%ld%ld"] and
    ["%sItemModel%ld%ld"] for SVD. *)
Definition model_tables (fam : family) (base : string) (ts : timeval)
  : list (string * list (string * sqltype)) :=
  match fam with
  | ItemCF =>
      [(base +:+ "Model" +:+ stamp ts,
        [("item1", INTEGER); ("item2", INTEGER); ("similarity", REAL)])]
  | UserCF =>
      [(base +:+ "Model" +:+ stamp ts,
        [("user1", INTEGER); ("user2", INTEGER); ("similarity", REAL)])]
  | SVDfam =>
      [(base +:+ "UserModel" +:+ stamp ts,
        [("users", INTEGER); ("feature", INTEGER); ("value", REAL)]);
       (base +:+ "ItemModel" +:+ stamp ts,
        [("items", INTEGER); ("feature", INTEGER); ("value", REAL)])]
  end.

Definition model_names (fam : family) (base : string) (ts : timeval) : list string :=
  (model_tables fam base ts).*1.

(** The [VALUES] list of the index-table [INSERT]: [default], the model
    name(s) and the view name, each pasted between quotes,
    [0, numRatings, 0, 0.0, 0.0, localtimestamp], and then one attribute
    value per context attribute, each pasted between quotes as it is. *)
Definition index_row (models : list string) (view : string) (numRatings : Z)
           (attvalues : list string) : tuple :=
  VDefault :: map VQuoted models ++
  [VQuoted view; VInt 0; VInt numRatings; VInt 0; VReal 0 1; VReal 0 1; VLocalTimestamp]
  ++ map VQuoted attvalues.

(** *** The text of the statements of one cell *)

Definition type_text (ty : sqltype) : string :=
  match ty with
  | SERIAL => "serial" | INTEGER => "INTEGER" | REAL => "REAL"
  | VARCHAR => "VARCHAR" | BOOLEAN => "BOOLEAN" | TIMESTAMP => "TIMESTAMP"
  end.

Fixpoint columns_text (cols : list (string * sqltype)) : string :=
  match cols with
  | [] => ""
  | [c] => c.1 +:+ " " +:+ type_text c.2 +:+ " NOT NULL"
  | c :: rest => c.1 +:+ " " +:+ type_text c.2 +:+ " NOT NULL, " +:+ columns_text rest
  end.

(** ["CREATE TABLE %s (item1 INTEGER NOT NULL, item2 INTEGER NOT NULL,
    similarity REAL NOT NULL);"] and its three siblings. *)
Definition model_text (m : string * list (string * sqltype)) : string :=
  "CREATE TABLE " +:+ m.1 +:+ " (" +:+ columns_text m.2 +:+ ");".

(** ["CREATE TABLE %sView%ld%ld (%s INTEGER NOT NULL, %s INTEGER NOT NULL,
    PRIMARY KEY (%s, %s), recscore REAL NOT NULL);"]. *)
Definition view_text (view userkey itemkey : string) : string :=
  "CREATE TABLE " +:+ view +:+ " (" +:+ userkey +:+ " INTEGER NOT NULL, "
  +:+ itemkey +:+ " INTEGER NOT NULL, PRIMARY KEY (" +:+ userkey +:+ ", "
  +:+ itemkey +:+ "), recscore REAL NOT NULL);".

(** ["INSERT INTO %sView%ld%ld VALUES(-1,-1,-1);"]. *)
Definition dummy_text (view : string) : string :=
  "INSERT INTO " +:+ view +:+ " VALUES(-1,-1,-1);".

(** [", '%s'"], the piece printed into [char addition[256]] for one
    attribute value. *)
Definition addition_text (attvalue : string) : string := ", '" +:+ attvalue +:+ "'".

(** ["INSERT INTO %s VALUES (default, '%s', '%sView%ld%ld', 0, %d, 0, 0.0,
    0.0, localtimestamp"] (with two model names for SVD), the additions
    appended to it one by one, and the closing [");"]. *)
Definition index_insert_text (recindexname : string) (models : list string)
           (view : string) (numRatings : Z) (attvalues : list string) : string :=
  "INSERT INTO " +:+ recindexname +:+ " VALUES (default, "
  +:+ String.concat "" (map (fun m => "'" +:+ m +:+ "', ") models)
  +:+ "'" +:+ view +:+ "', 0, " +:+ Str.fmt_ld numRatings
  +:+ ", 0, 0.0, 0.0, localtimestamp"
  +:+ String.concat "" (map addition_text attvalues) +:+ ");".

(** *** Calls into the modelling backend *)

Definition precompute_cos (tbl key : string) (recStmt : CreateRStmt) : M stats :=
  T ← get_tables;
  let '(num, ids, lengths) :=
    vector_lengths tbl key (relname (ratingtable recStmt)) (ratingval recStmt) T in
  emit (EvPrecompute Fvector_lengths tbl key (relname (ratingtable recStmt))
                     (ratingval recStmt) (StatsCos num ids lengths));;
  mret (StatsCos num ids lengths).

Definition precompute_pear (tbl key : string) (recStmt : CreateRStmt) : M stats :=
  T ← get_tables;
  let '(num, ids, avgs, pearsons) :=
    pearson_info tbl key (relname (ratingtable recStmt)) (ratingval recStmt) T in
  emit (EvPrecompute Fpearson_info tbl key (relname (ratingtable recStmt))
                     (ratingval recStmt) (StatsPear num ids avgs pearsons));;
  mret (StatsPear num ids avgs pearsons).

(** The statistics obtained at the head of each builder, before the
    [if (numatts > 0)]. *)
Definition precompute (fam : family) (recStmt : CreateRStmt) (method : recMethod)
  : M stats :=
  match fam with
  | ItemCF =>
      if bool_decide (method = itemCosCF)
      then precompute_cos (relname (itemtable recStmt)) (itemkey recStmt) recStmt
      else if bool_decide (method = itemPearCF)
      then precompute_pear (relname (itemtable recStmt)) (itemkey recStmt) recStmt
      else mret StatsUnset
  | UserCF =>
      if bool_decide (method = userCosCF)
      then precompute_cos (relname (usertable recStmt)) (userkey recStmt) recStmt
      else if bool_decide (method = userPearCF)
      then precompute_pear (relname (usertable recStmt)) (userkey recStmt) recStmt
      else mret StatsUnset
  | SVDfam => mret StatsUnset
  end.

(** The backend "writes directly into the target model table" (§4.2). *)
Definition append_rows (name : string) (rows : list tuple) : M unit :=
  T ← get_tables;
  match T !! Str.lower name with
  | Some t =>
      set_tables (<[Str.lower name := mkTable (tcols t) (tpkey t) (trows t ++ rows)]> T)
  | None => ereport_ERROR ERRCODE_UNDEFINED_TABLE "relation does not exist"
  end.

Definition backend_failure {A} : M A :=
  ereport_ERROR ERRCODE_EXTERNAL_ROUTINE_EXCEPTION "model computation failed".

Definition call_cf (f : populate_fn)
           (run : populate_call → gmap string table → option (Z * list tuple))
           (c : populate_call) : M Z :=
  T ← get_tables;
  match run c T with
  | Some (numRatings, rows) =>
      emit (EvPopulate f c numRatings);;
      for_each (fun m => append_rows m rows) (pc_models c);;
      mret numRatings
  | None => backend_failure
  end.

Definition call_svd (c : populate_call) : M Z :=
  T ← get_tables;
  match SVDsimilarity c T with
  | Some (numRatings, urows, irows) =>
      emit (EvPopulate FSVDsimilarity c numRatings);;
      for_each (fun mr => append_rows mr.1 mr.2) (zip (pc_models c) [urows; irows]);;
      mret numRatings
  | None => backend_failure
  end.

(** The arguments of the populate call of one cell.  [ctx] is
    [Some (attnames, attvalues)] in the context-based loop and [None] in the
    context-free branch, where the builders pass [NULL, NULL] (and SVD the
    literal [0] for the number of attributes). *)
Definition populate_args (fam : family) (recStmt : CreateRStmt)
           (models : list string) (numatts : Z)
           (ctx : option (list string * list string)) (st : stats) : populate_call :=
  mkCall (relname (usertable recStmt)) (relname (itemtable recStmt))
         (relname (ratingtable recStmt))
         (userkey recStmt) (itemkey recStmt) (ratingval recStmt)
         models
         (match fam, ctx with SVDfam, None => 0%Z | _, _ => numatts end)
         (fst <$> ctx) (snd <$> ctx) st.

(** The populate call of one cell.  [numRatings] keeps its initial [0]
    when a CF builder is run with a method it does not test for. *)
Definition populate (fam : family) (recStmt : CreateRStmt) (method : recMethod)
           (models : list string) (numatts : Z)
           (ctx : option (list string * list string)) (st : stats) : M Z :=
  let c := populate_args fam recStmt models numatts ctx st in
  match fam with
  | ItemCF =>
      if bool_decide (method = itemCosCF)
      then call_cf FupdateItemCosModel updateItemCosModel c
      else if bool_decide (method = itemPearCF)
      then call_cf FupdateItemPearModel updateItemPearModel c
      else mret 0%Z
  | UserCF =>
      if bool_decide (method = userCosCF)
      then call_cf FupdateUserCosModel updateUserCosModel c
      else if bool_decide (method = userPearCF)
      then call_cf FupdateUserPearModel updateUserPearModel c
      else mret 0%Z
  | SVDfam => call_svd c
  end.

(** *** One cell

    The body shared by the [for (;;)] loop and by the context-free
    branch of each builder: read the clock, name and create the model
    table(s), create the view and give it its dummy row, populate, and
    record the cell in the index table. *)
Definition build_cell (fam : family) (recStmt : CreateRStmt) (method : recMethod)
           (numatts : Z) (st : stats)
           (ctx : option (list string * list string)) : M unit :=
  let base := relname (relation recStmt) in
  (* [recindexname] is given [6 + strlen] bytes, which ["%sIndex"] fills
     exactly *)
  let recindexname := index_name base in
  timestamp ← gettimeofday;
  (* the model name(s), each into 256 bytes *)
  for_each (fun m => sprintf 256 m.1) (model_tables fam base timestamp);;
  (* every statement of the cell is printed into 1024 bytes *)
  for_each (fun m => sprintf 1024 (model_text m);;
                     recathon_utilityExecute (CREATE_TABLE false m.1 m.2 []))
           (model_tables fam base timestamp);;
  sprintf 1024 (view_text (view_name base timestamp) (userkey recStmt) (itemkey recStmt));;
  recathon_utilityExecute
    (CREATE_TABLE false (view_name base timestamp)
       [(userkey recStmt, INTEGER); (itemkey recStmt, INTEGER); ("recscore", REAL)]
       [userkey recStmt; itemkey recStmt]);;
  sprintf 1024 (dummy_text (view_name base timestamp));;
  recathon_queryExecute
    (INSERT_INTO (view_name base timestamp) [VInt (-1); VInt (-1); VInt (-1)]);;
  numRatings ← populate fam recStmt method (model_names fam base timestamp)
                        numatts ctx st;
  for_each (fun attvalue => sprintf 256 (addition_text attvalue))
           (default [] (snd <$> ctx));;
  sprintf 1024 (index_insert_text recindexname (model_names fam base timestamp)
                                  (view_name base timestamp) numRatings
                                  (default [] (snd <$> ctx)));;
  recathon_queryExecute
    (INSERT_INTO recindexname
       (index_row (model_names fam base timestamp) (view_name base timestamp)
                  numRatings (default [] (snd <$> ctx)))).

(** [attnames[i]] for [i < numatts], each printed into 256 bytes of its
    own from the attribute list; running off the end of the list
    dereferences [NULL]. *)
Fixpoint copy_names (attList : list string) (n : nat) : M (list string) :=
  match n with
  | 0 => mret []
  | S n' =>
      match attList with
      | [] => ereport_ERROR SIGSEGV "attribute list shorter than numatts"
      | colname :: next =>
          sprintf 256 colname;;
          rest ← copy_names next n';
          mret (colname :: rest)
      end
  end.

Definition copy_attnames (attList : list string) (numatts : Z) : M (list string) :=
  copy_names attList (Z.to_nat numatts).

(** ["SELECT DISTINCT "], the attribute names with [", "] between them,
    [" FROM "], the user table and [";"], appended one after the other in
    1024 bytes. *)
Definition attquery_text (attList : list string) (usertable : string) : string :=
  "SELECT DISTINCT " +:+ String.concat ", " attList +:+ " FROM " +:+ usertable +:+ ";".

(** The cleanup after the loop, [pfree(attvalues[i])] for [i < numatts]
    (the branch is entered with [numatts > 0]).  The array holds what the
    last pass of the loop stored in it; when the cursor returned no row its
    entries were never assigned, and freeing one has no defined outcome. *)
Definition free_attvalues (slots : list slot) : M unit :=
  match slots with
  | [] => ereport_ERROR SIGSEGV "pfree of a pointer never assigned"
  | _ => mret tt
  end.

(** [attvalues[j] = getTupleString(slot, attnames[j])].  The builders go
    on to print every entry with [%s]; a [NULL] entry is modelled as a
    crash at this point. *)
Definition read_attvalues (sl : slot) (attnames : list string) : M (list string) :=
  match mapM (getTupleString sl) attnames with
  | Some vs => mret vs
  | None => ereport_ERROR SIGSEGV "NULL attribute value"
  end.

(** *** The builders

    [itemSimilarity], [userSimilarity] and [SVDSimilarity] are three copies
    of one body.  They differ in the statistics call at their head, in the
    model table(s) a cell gets and in the populate call, which [fam]
    selects below; the [printf] lines left in [userSimilarity] write to
    standard output only and are not modelled, and the buffers of a body
    are the same in all three. *)

Definition similarity (fam : family) (recStmt : CreateRStmt) (attList : list string)
           (numatts : Z) (method : recMethod) : M unit :=
  st ← precompute fam recStmt method;
  if bool_decide (0 < numatts)%Z then
    attnames ← copy_attnames attList numatts;
    sprintf 1024 (attquery_text attList (relname (usertable recStmt)));;
    slots ← recathon_queryStart
              (SELECT_DISTINCT attList (relname (usertable recStmt)));
    for_each (fun sl =>
                attvalues ← read_attvalues sl attnames;
                build_cell fam recStmt method numatts st (Some (attnames, attvalues)))
             slots;;
    recathon_queryEnd;;
    free_attvalues slots
  else
    build_cell fam recStmt method numatts st None.

Definition itemSimilarity (recStmt : CreateRStmt) (attList : list string)
           (numatts : Z) (method : recMethod) : M unit :=
  similarity ItemCF recStmt attList numatts method.

Definition userSimilarity (recStmt : CreateRStmt) (attList : list string)
           (numatts : Z) (method : recMethod) : M unit :=
  similarity UserCF recStmt attList numatts method.

Definition SVDSimilarity (recStmt : CreateRStmt) (attList : list string)
           (numatts : Z) : M unit :=
  similarity SVDfam recStmt attList numatts SVD.

(** *** [case T_CreateRStmt] *)

Definition catalogue_schema : list (string * sqltype) :=
  [("recommenderId", SERIAL); ("recommenderIndexName", VARCHAR);
   ("userTable", VARCHAR); ("itemTable", VARCHAR); ("ratingTable", VARCHAR);
   ("userKey", VARCHAR); ("itemKey", VARCHAR); ("ratingVal", VARCHAR);
   ("method", VARCHAR); ("contextattributes", INTEGER)].

Definition properties_schema : list (string * sqltype) :=
  [("update_threshold", REAL); ("tail_length", INTEGER); ("verbose_queries", BOOLEAN)].

Definition properties_defaults : tuple := [VReal 5 1; VInt 0; VBool true].

Definition index_fixed_schema : list (string * sqltype) :=
  [("recViewName", VARCHAR); ("updateCounter", INTEGER); ("ratingTotal", INTEGER);
   ("queryCounter", INTEGER); ("updateRate", REAL); ("queryRate", REAL);
   ("levelone_timestamp", TIMESTAMP)].

(** SVD uses two different models, while the other methods use only one. *)
Definition index_schema (method : recMethod) (attr_list : list string)
  : list (string * sqltype) :=
  (if bool_decide (method = SVD)
   then [("systemId", SERIAL); ("recUserModelName", VARCHAR); ("recItemModelName", VARCHAR)]
   else [("systemId", SERIAL); ("recModelName", VARCHAR)])
  ++ index_fixed_schema
  ++ map (fun colname => (colname, VARCHAR)) attr_list.

(** The text of the statements of the "CREATE TABLES" block. *)
Definition catalogue_create_text : string :=
  "CREATE TABLE IF NOT EXISTS RecModelsCatalogue (recommenderId serial, "
  +:+ "PRIMARY KEY (recommenderId), recommenderIndexName VARCHAR NOT NULL, "
  +:+ "userTable VARCHAR NOT NULL, itemTable VARCHAR NOT NULL, "
  +:+ "ratingTable VARCHAR NOT NULL, userKey VARCHAR NOT NULL, "
  +:+ "itemKey VARCHAR NOT NULL, ratingVal VARCHAR NOT NULL, "
  +:+ "method VARCHAR NOT NULL, contextattributes INTEGER NOT NULL);".

(** ["INSERT INTO RecModelsCatalogue VALUES
    (default,'%sIndex','%s','%s','%s','%s','%s','%s','%s',%d);"]. *)
Definition catalogue_insert_text (recStmt : CreateRStmt) (numatts : Z) : string :=
  "INSERT INTO RecModelsCatalogue VALUES (default,'"
  +:+ relname (relation recStmt) +:+ "Index','"
  +:+ relname (usertable recStmt) +:+ "','" +:+ relname (itemtable recStmt) +:+ "','"
  +:+ relname (ratingtable recStmt) +:+ "','" +:+ userkey recStmt +:+ "','"
  +:+ itemkey recStmt +:+ "','" +:+ ratingval recStmt +:+ "','"
  +:+ method_text recStmt +:+ "'," +:+ Str.fmt_ld numatts +:+ ");".

Definition properties_create_text : string :=
  "CREATE TABLE RecathonProperties (update_threshold REAL NOT NULL, "
  +:+ "tail_length INTEGER NOT NULL, verbose_queries BOOLEAN NOT NULL);".

Definition properties_insert_text : string :=
  "INSERT INTO RecathonProperties VALUES (0.5, 0, true);".

(** The head of the [CREATE TABLE] of the index table, one text for SVD
    and one for the other methods. *)
Definition index_create_head (method : recMethod) (base : string) : string :=
  "CREATE TABLE " +:+ base +:+ "Index (systemId serial, PRIMARY KEY (systemId), "
  +:+ (if bool_decide (method = SVD)
       then "recUserModelName VARCHAR NOT NULL, recItemModelName VARCHAR NOT NULL, "
       else "recModelName VARCHAR NOT NULL, ")
  +:+ "recViewName VARCHAR NOT NULL, updateCounter INTEGER NOT NULL, "
  +:+ "ratingTotal INTEGER NOT NULL, queryCounter INTEGER NOT NULL, "
  +:+ "updateRate REAL NOT NULL, queryRate REAL NOT NULL, "
  +:+ "levelone_timestamp TIMESTAMP NOT NULL".

(** [", %s VARCHAR NOT NULL"], the piece printed into [char addition[64]]
    for one context attribute. *)
Definition column_text (colname : string) : string :=
  ", " +:+ colname +:+ " VARCHAR NOT NULL".

Definition index_create_text (method : recMethod) (base : string)
           (attr_list : list string) : string :=
  index_create_head method base
  +:+ String.concat "" (map column_text attr_list) +:+ ");".

(** The [VALUES] list of the [INSERT] into the recommender-list table:
    the eight strings are pasted between quotes as they are. *)
Definition catalogue_row (recStmt : CreateRStmt) (numatts : Z) : tuple :=
  [VDefault; VQuoted (relname (relation recStmt) +:+ "Index");
   VQuoted (relname (usertable recStmt)); VQuoted (relname (itemtable recStmt));
   VQuoted (relname (ratingtable recStmt)); VQuoted (userkey recStmt);
   VQuoted (itemkey recStmt); VQuoted (ratingval recStmt);
   VQuoted (method_text recStmt); VInt numatts].

(** The "CREATE TABLES" block: the recommender-list table unless it
    exists, this recommender's row in it, the properties table and its
    default row unless the table exists, and the index table.  The buffers
    are of 512, 1024, 256, 64 and 1024 bytes, in this order. *)
Definition create_tables (recStmt : CreateRStmt) (attr_list : list string)
           (method : recMethod) (numatts : Z) : M unit :=
  sprintf 512 catalogue_create_text;;
  recathon_utilityExecute
    (CREATE_TABLE true "RecModelsCatalogue" catalogue_schema ["recommenderId"]);;
  sprintf 1024 (catalogue_insert_text recStmt numatts);;
  recathon_queryExecute
    (INSERT_INTO "RecModelsCatalogue" (catalogue_row recStmt numatts));;
  props ← relationExists "recathonproperties";
  (if negb props then
     sprintf 256 properties_create_text;;
     recathon_utilityExecute
       (CREATE_TABLE false "RecathonProperties" properties_schema []);;
     sprintf 64 properties_insert_text;;
     recathon_queryExecute (INSERT_INTO "RecathonProperties" properties_defaults)
   else mret tt);;
  for_each (fun colname => sprintf 64 (column_text colname)) attr_list;;
  sprintf 1024 (index_create_text method (relname (relation recStmt)) attr_list);;
  recathon_utilityExecute
    (CREATE_TABLE false (relname (relation recStmt) +:+ "Index")
                  (index_schema method attr_list) ["systemId"]).

(** The "CREATE MODELS" switch.  Its [default:] arm reports an
    unrecognised method; [recMethod] has no further value to reach it. *)
Definition create_models (recStmt : CreateRStmt) (attr_list : list string)
           (method : recMethod) (numatts : Z) : M unit :=
  match method with
  | itemCosCF | itemPearCF => itemSimilarity recStmt attr_list numatts method
  | userCosCF | userPearCF => userSimilarity recStmt attr_list numatts method
  | SVD => SVDSimilarity recStmt attr_list numatts
  end.

Definition sanity_checks (recStmt : CreateRStmt) : M (list string * recMethod * Z) :=
  fun w => match validateCreateRStmt recStmt (tables w) with
           | inr r => Ok r w
           | inl e => Fatal e w
           end.

(** *** [case T_DropRecStmt] *)

(** One pass of the loop that stores every cell: which columns are read
    depends on the method string. *)
Definition read_cell (method : string) (sl : slot) : cell_node :=
  if bool_decide (method = "svd")
  then mkCell (getTupleString sl "recusermodelname")
              (getTupleString sl "recitemmodelname")
              (getTupleString sl "recviewname")
  else mkCell (getTupleString sl "recmodelname") None
              (getTupleString sl "recviewname").

Definition drop_if_set (name : option string) : M unit :=
  match name with
  | Some n => recathon_utilityExecute (DROP_TABLE n)
  | None => mret tt
  end.

(** The body of [for (ctemp = chead; ctemp; ctemp = ctemp->next)]. *)
Definition drop_cell (ctemp : cell_node) : M unit :=
  drop_if_set (modelname1 ctemp);;
  drop_if_set (modelname2 ctemp);;
  drop_if_set (viewname ctemp).

Definition freeCellList (head : list cell_node) : M unit := mret tt.

Definition drop_recommender (dropstmt : DropRecStmt) : M unit :=
  let recname := Str.lower (relname (recommender dropstmt)) in
  catalogue ← relationExists "recmodelscatalogue";
  (if negb catalogue
   then ereport_ERROR ERRCODE_INVALID_SCHEMA_NAME "no recommenders have been created"
   else mret tt);;
  known ← recommenderExists recname;
  (if negb known
   then ereport_ERROR ERRCODE_INVALID_SCHEMA_NAME
                      ("recommender " +:+ recname +:+ " does not exist")
   else mret tt);;
  method ← getRecInfo (recname +:+ "Index");
  slots ← recathon_queryStart (SELECT_STAR (recname +:+ "index"));
  let chead := map (read_cell method) slots in
  recathon_queryEnd;;
  (if bool_decide (chead = [])
   then ereport WARNING ERRCODE_INVALID_SCHEMA_NAME
                ("failed to find cells for recommender " +:+ recname)
   else mret tt);;
  for_each drop_cell chead;;
  freeCellList chead;;
  recathon_utilityExecute (DROP_TABLE (recname +:+ "index"));;
  recathon_queryExecute
    (DELETE_WHERE "recmodelscatalogue" "recommenderindexname" (recname +:+ "Index")).

(** *** The two Recathon arms of [standard_ProcessUtility] *)

Definition standard_ProcessUtility (parsetree : Node) : M unit :=
  match parsetree with
  | T_CreateRStmt recStmt =>
      '(attr_list, method, numatts) ← sanity_checks recStmt;
      create_tables recStmt attr_list method numatts;;
      create_models recStmt attr_list method numatts
  | T_DropRecStmt dropstmt => drop_recommender dropstmt
  end.

End Recathon.

(** ** Worlds reached by single statements *)

Definition logged (e : event) (w : World) : World :=
  mkWorld (tables w) (ticks w) (log w ++ [e]).

Definition with_tables (T : gmap string table) (w : World) : World :=
  mkWorld T (ticks w) (log w).

Definition add_row (r : tuple) (t : table) : table :=
  mkTable (tcols t) (tpkey t) (trows t ++ [r]).

Definition add_rows (rs : list tuple) (t : table) : table :=
  mkTable (tcols t) (tpkey t) (trows t ++ rs).

(** ** What a run of a builder leaves behind

    One record per cell a builder has gone through: the clock value it
    read, its context (attribute names and values, [None] for the
    context-free cell) and the number the populate call returned. *)
Record built_cell := mkBuilt {
  bc_time : timeval;
  bc_ctx : option (list string * list string);
  bc_ratings : Z
}.

(** The backend routine a builder calls for a method, if any. *)
Definition populate_routine (fam : family) (method : recMethod) : option populate_fn :=
  match fam with
  | ItemCF =>
      if bool_decide (method = itemCosCF) then Some FupdateItemCosModel
      else if bool_decide (method = itemPearCF) then Some FupdateItemPearModel
      else None
  | UserCF =>
      if bool_decide (method = userCosCF) then Some FupdateUserCosModel
      else if bool_decide (method = userPearCF) then Some FupdateUserPearModel
      else None
  | SVDfam => Some FSVDsimilarity
  end.

Definition cell_artifacts (fam : family) (base : string) (b : built_cell) : list string :=
  model_names fam base (bc_time b) ++ [view_name base (bc_time b)].

Definition cell_attvalues (b : built_cell) : list string :=
  default [] (snd <$> bc_ctx b).

(** The [VALUES] list a cell prints for the index table. *)
Definition cell_values (fam : family) (recStmt : CreateRStmt) (b : built_cell) : tuple :=
  index_row (model_names fam (relname (relation recStmt)) (bc_time b))
            (view_name (relname (relation recStmt)) (bc_time b))
            (bc_ratings b) (cell_attvalues b).

(** What the index row of a cell holds under the context columns: the
    cell's attribute values as they are read back from between the quotes
    they were pasted in. *)
Definition cell_stored (b : built_cell) : list string :=
  default [] (mapM Sql.unquote (cell_attvalues b)).

(** The row the index table holds for a cell. *)
Definition cell_row (fam : family) (recStmt : CreateRStmt) (b : built_cell) : tuple :=
  VDefault :: map VStr (model_names fam (relname (relation recStmt)) (bc_time b))
  ++ [VStr (view_name (relname (relation recStmt)) (bc_time b));
      VInt 0; VInt (bc_ratings b); VInt 0; VReal 0 1; VReal 0 1; VLocalTimestamp]
  ++ map VStr (cell_stored b).

(** The view table of a cell as its builder leaves it: the dummy row
    only. *)
Definition blank_view (recStmt : CreateRStmt) : table :=
  mkTable (fold_cols [(userkey recStmt, INTEGER); (itemkey recStmt, INTEGER);
                      ("recscore", REAL)])
          (map Str.lower [userkey recStmt; itemkey recStmt])
          [[VInt (-1); VInt (-1); VInt (-1)]].

(** The catalog with the empty model table(s) of a cell added. *)
Definition with_models (ms : list (string * list (string * sqltype)))
           (T : gmap string table) : gmap string table :=
  foldl (fun T m => <[Str.lower m.1 := mkTable (fold_cols m.2) [] []]> T) T ms.

(** The catalog a cell's populate call is made in, [T] being the catalog
    the cell started in: the model table(s) of the cell are there and
    empty, its view table is there with the dummy row. *)
Definition cell_tables (fam : family) (recStmt : CreateRStmt) (ts : timeval)
           (T : gmap string table) : gmap string table :=
  <[Str.lower (view_name (relname (relation recStmt)) ts) := blank_view recStmt]>
    (with_models (model_tables fam (relname (relation recStmt)) ts) T).

(** The number a routine of the backend returns for a call. *)
Definition backend_ratings `{ModelingBackend} (f : populate_fn) (c : populate_call)
           (T : gmap string table) : option Z :=
  match f with
  | FupdateItemCosModel => fst <$> updateItemCosModel c T
  | FupdateItemPearModel => fst <$> updateItemPearModel c T
  | FupdateUserCosModel => fst <$> updateUserCosModel c T
  | FupdateUserPearModel => fst <$> updateUserPearModel c T
  | FSVDsimilarity => (fun r => r.1.1) <$> SVDsimilarity c T
  end.

(** The statistics the backend gives for the whole of the source
    relations in a catalog: vector lengths for the cosine methods, means
    and Pearson constants for the Pearson methods, of the items for item
    CF and of the users for user CF. *)
Definition backend_stats `{ModelingBackend} (recStmt : CreateRStmt) (method : recMethod)
           (T : gmap string table) : stats :=
  let rt := relname (ratingtable recStmt) in
  let rv := ratingval recStmt in
  match method with
  | itemCosCF =>
      let '(num, ids, lengths) :=
        vector_lengths (relname (itemtable recStmt)) (itemkey recStmt) rt rv T in
      StatsCos num ids lengths
  | itemPearCF =>
      let '(num, ids, avgs, pearsons) :=
        pearson_info (relname (itemtable recStmt)) (itemkey recStmt) rt rv T in
      StatsPear num ids avgs pearsons
  | userCosCF =>
      let '(num, ids, lengths) :=
        vector_lengths (relname (usertable recStmt)) (userkey recStmt) rt rv T in
      StatsCos num ids lengths
  | userPearCF =>
      let '(num, ids, avgs, pearsons) :=
        pearson_info (relname (usertable recStmt)) (userkey recStmt) rt rv T in
      StatsPear num ids avgs pearsons
  | SVD => StatsUnset
  end.

(** The calls one cell makes, in order. *)
Definition cell_events (fam : family) (recStmt : CreateRStmt) (method : recMethod)
           (numatts : Z) (st : stats) (b : built_cell) : list event :=
  let base := relname (relation recStmt) in
  let ts := bc_time b in
  [EvClock ts]
  ++ map (fun m => EvUtility (CREATE_TABLE false m.1 m.2 [])) (model_tables fam base ts)
  ++ [EvUtility (CREATE_TABLE false (view_name base ts)
                   [(userkey recStmt, INTEGER); (itemkey recStmt, INTEGER);
                    ("recscore", REAL)]
                   [userkey recStmt; itemkey recStmt]);
      EvQuery (INSERT_INTO (view_name base ts) [VInt (-1); VInt (-1); VInt (-1)])]
  ++ match populate_routine fam method with
     | Some f => [EvPopulate f (populate_args fam recStmt (model_names fam base ts)
                                              numatts (bc_ctx b) st)
                             (bc_ratings b)]
     | None => []
     end
  ++ [EvQuery (INSERT_INTO (index_name base) (cell_values fam recStmt b))].

(** The statistics call a builder makes before its first cell, if any. *)
Definition precompute_events (fam : family) (recStmt : CreateRStmt)
           (method : recMethod) (st : stats) : list event :=
  match fam with
  | ItemCF =>
      if bool_decide (method = itemCosCF)
      then [EvPrecompute Fvector_lengths (relname (itemtable recStmt)) (itemkey recStmt)
                         (relname (ratingtable recStmt)) (ratingval recStmt) st]
      else if bool_decide (method = itemPearCF)
      then [EvPrecompute Fpearson_info (relname (itemtable recStmt)) (itemkey recStmt)
                         (relname (ratingtable recStmt)) (ratingval recStmt) st]
      else []
  | UserCF =>
      if bool_decide (method = userCosCF)
      then [EvPrecompute Fvector_lengths (relname (usertable recStmt)) (userkey recStmt)
                         (relname (ratingtable recStmt)) (ratingval recStmt) st]
      else if bool_decide (method = userPearCF)
      then [EvPrecompute Fpearson_info (relname (usertable recStmt)) (userkey recStmt)
                         (relname (ratingtable recStmt)) (ratingval recStmt) st]
      else []
  | SVDfam => []
  end.

(** [cell_called ... T b]: the populate call of cell [b], made in a world
    that started the cell with catalog [T], was answered by the backend with
    the number the cell records: the routine of the method, applied to the
    arguments of the cell and to the catalog of that moment, returned it. *)
Definition cell_called `{ModelingBackend} (fam : family) (recStmt : CreateRStmt)
           (method : recMethod) (numatts : Z) (st : stats)
           (T : gmap string table) (b : built_cell) : Prop :=
  let base := relname (relation recStmt) in
  match populate_routine fam method with
  | Some f =>
      backend_ratings f (populate_args fam recStmt (model_names fam base (bc_time b))
                                       numatts (bc_ctx b) st)
                      (cell_tables fam recStmt (bc_time b) T)
      = Some (bc_ratings b)
  | None => bc_ratings b = 0%Z
  end.

(** [cells_built clock ... bs w w']: going from [w] to [w'] the cells [bs]
    were built one after the other.  Each read the clock once; their calls
    are the only ones logged; their relations are new, pairwise distinct
    and still present; the index table gained their rows in order; no other
    relation changed; the attribute values of each could be read back from
    between quotes; and the number each records is the one the backend
    returned, in a catalog that held every other relation as [w] did. *)
Definition cells_built `{ModelingBackend} (clock : nat → timeval) (fam : family)
           (recStmt : CreateRStmt)
           (method : recMethod) (numatts : Z) (st : stats)
           (bs : list built_cell) (w w' : World) : Prop :=
  let base := relname (relation recStmt) in
  let arts := Str.lower <$> (bs ≫= cell_artifacts fam base) in
  ticks w' = ticks w + List.length bs
  ∧ (∀ i b, bs !! i = Some b → bc_time b = clock (ticks w + i))
  ∧ log w' = log w ++ (bs ≫= cell_events fam recStmt method numatts st)
  ∧ (populate_routine fam method = None → Forall (fun b => bc_ratings b = 0%Z) bs)
  ∧ NoDup arts
  ∧ (∀ k, k ∈ arts → tables w !! k = None ∧ is_Some (tables w' !! k))
  ∧ (∀ t0, tables w !! Str.lower (index_name base) = Some t0 →
           tables w' !! Str.lower (index_name base)
           = Some (add_rows (cell_row fam recStmt <$> bs) t0))
  ∧ (∀ k, k ∉ arts → k ≠ Str.lower (index_name base) →
          tables w' !! k = tables w !! k)
  ∧ Forall (fun b => mapM Sql.unquote (cell_attvalues b) = Some (cell_stored b)) bs
  ∧ Forall (fun b => ∃ T, (∀ k, k ∉ arts → k ≠ Str.lower (index_name base) →
                                T !! k = tables w !! k)
                          ∧ cell_called fam recStmt method numatts st T b) bs.

(** A cell of the context-based loop belongs to a result row: its
    attribute values are the row's texts for the attribute names. *)
Definition cell_of_slot (attnames : list string) (sl : slot) (b : built_cell) : Prop :=
  ∃ vs, mapM (getTupleString sl) attnames = Some vs ∧ bc_ctx b = Some (attnames, vs).

(** Events that are statements handed to the engine or reports, as
    opposed to clock reads and backend calls. *)
Definition statement_or_report (e : event) : Prop :=
  match e with
  | EvUtility _ | EvQuery _ | EvCursor _ | EvReport _ _ => True
  | _ => False
  end.

(** The index table as [create_tables] leaves it. *)
Definition fresh_index (method : recMethod) (attr_list : list string) : table :=
  mkTable (fold_cols (index_schema method attr_list)) [Str.lower "systemId"] [].

(** The properties table as first created. *)
Definition default_properties : table :=
  mkTable (fold_cols properties_schema) [] [properties_defaults].

(** The family a method is dispatched to by the "CREATE MODELS" switch. *)
Definition family_of (method : recMethod) : family :=
  match method with
  | itemCosCF | itemPearCF => ItemCF
  | userCosCF | userPearCF => UserCF
  | SVD => SVDfam
  end.

(** ** What a run of the drop handler leaves behind *)

(** The names a stored cell carries, in the order the loop drops them. *)
Definition cell_names (c : cell_node) : list string :=
  omap id [modelname1 c; modelname2 c; viewname c].

(** The cells the drop handler stores for an index table. *)
Definition stored_cells (method : string) (t : table) : list cell_node :=
  map (read_cell method) (map (slot_of t) (trows t)).

Definition is_statement (e : event) : bool :=
  match e with
  | EvUtility _ | EvQuery _ | EvCursor _ => true
  | _ => false
  end.

(** The statements among the calls of a log, reports left out. *)
Definition statements (l : list event) : list event := filter is_statement l.

Definition drop_statements (names : list string) : list event :=
  (fun n => EvUtility (DROP_TABLE n)) <$> names.

(** [dropped names w w']: going from [w] to [w'] one [DROP] was issued
    for each name, in order, and exactly these relations are gone. *)
Definition dropped (names : list string) (w w' : World) : Prop :=
  ticks w' = ticks w
  ∧ (∃ l, log w' = log w ++ l ∧ statements l = drop_statements names
          ∧ Forall statement_or_report l)
  ∧ ∀ k, tables w' !! k
         = if bool_decide (k ∈ Str.lower <$> names) then None else tables w !! k.

(** The numbers returned by the populate calls of a log, in order. *)
Definition populate_results (l : list event) : list Z :=
  omap (fun e => match e with EvPopulate _ _ n => Some n | _ => None end) l.

(** The statistics calls of a log, in order. *)
Definition is_precompute (e : event) : bool :=
  match e with EvPrecompute _ _ _ _ _ _ => true | _ => false end.

Definition precompute_calls (l : list event) : list event := filter is_precompute l.

(** The statistics handed to the populate calls of a log, in order. *)
Definition populate_stats (l : list event) : list stats :=
  omap (fun e => match e with EvPopulate _ c _ => Some (pc_stats c) | _ => None end) l.

(** The clock reads of a log, in order. *)
Definition clock_reads (l : list event) : list timeval :=
  omap (fun e => match e with EvClock t => Some t | _ => None end) l.

(** The relations a log creates, in order. *)
Definition created (l : list event) : list string :=
  omap (fun e => match e with
                 | EvUtility (CREATE_TABLE _ name _ _) => Some name
                 | _ => None
                 end) l.



(** The columns of an index table that hold the names of a cell's
    relations, for a method text as the recommender-list table has it. *)
Definition artifact_columns (method : string) : list string :=
  if bool_decide (method = "svd")
  then ["recusermodelname"; "recitemmodelname"; "recviewname"]
  else ["recmodelname"; "recviewname"].

(** The names the drop handler reads off one row of an index table:
    the model column(s), which depend on the method text, and the view
    column; a column the row lacks contributes nothing. *)
Definition names_in_row (method : string) (sl : slot) : list string :=
  omap id (if bool_decide (method = "svd")
           then [getTupleString sl "recusermodelname";
                 getTupleString sl "recitemmodelname";
                 getTupleString sl "recviewname"]
           else [getTupleString sl "recmodelname"; None;
                 getTupleString sl "recviewname"]).

(** [keeps k t m]: whatever way [m] ends, a relation [k] holding [t]
    still holds [t] afterwards. *)
Definition keeps {A} (k : string) (t : table) (m : M A) : Prop :=
  ∀ w, tables w !! k = Some t → tables (final (m w)) !! k = Some t.

(** Two worlds hold the same relations, and the same contents outside
    the relations named in [K]. *)
Definition touches (K : list string) (w w' : World) : Prop :=
  (∀ k, is_Some (tables w' !! k) ↔ is_Some (tables w !! k)) ∧
  (∀ k, k ∉ K → tables w' !! k = tables w !! k).

(** ** A sample installation

    A backend with fixed answers, a clock that advances by one microsecond
    per read, a validator that decodes the method text, and a user table
    with two regions; used to run the handlers on concrete statements. *)

Definition sample_backend : ModelingBackend := {|
  vector_lengths := fun _ _ _ _ _ => (2%Z, [1%Z; 2%Z], [S754_zero false; S754_zero false]);
  pearson_info := fun _ _ _ _ _ => (2%Z, [1%Z; 2%Z], [S754_zero false], [S754_zero false]);
  updateItemCosModel := fun _ _ => Some (7%Z, [[VInt 1; VInt 2; VReal 5 1]]);
  updateItemPearModel := fun _ _ => Some (8%Z, []);
  updateUserCosModel := fun _ _ => Some (9%Z, []);
  updateUserPearModel := fun _ _ => Some (10%Z, []);
  SVDsimilarity := fun _ _ => Some (11%Z, [[VInt 1; VInt 0; VReal 3 1]], [])
|}.

Definition sample_clock (n : nat) : timeval := mkTimeval 1700000000 (Z.of_nat n).

(** A clock too coarse to tell two reads apart. *)
Definition stuck_clock (n : nat) : timeval := mkTimeval 1700000000 42.

Definition sample_method (text : string) : option recMethod :=
  if bool_decide (text = "itemcoscf") then Some itemCosCF
  else if bool_decide (text = "itempearcf") then Some itemPearCF
  else if bool_decide (text = "usercoscf") then Some userCosCF
  else if bool_decide (text = "userpearcf") then Some userPearCF
  else if bool_decide (text = "svd") then Some SVD
  else None.

Definition sample_validate (recStmt : CreateRStmt) (T : gmap string table)
  : error + (list string * recMethod * Z) :=
  match sample_method (method_text recStmt) with
  | Some m =>
      if bool_decide (relname (relation recStmt) = "plain")
      then inr ([], m, 0%Z)
      else inr (["region"], m, 1%Z)
  | None => inl (mkError ERRCODE_SYNTAX_ERROR "recommendation method not recognized")
  end.

Definition sample_users : table :=
  mkTable [("uid", INTEGER); ("region", VARCHAR)] ["uid"]
          [[VInt 1; VStr "eu"]; [VInt 2; VStr "us"]; [VInt 3; VStr "eu"]].

Definition sample_world : World := mkWorld {[ "users" := sample_users ]} 0 [].

Definition sample_create (name text : string) : Node :=
  T_CreateRStmt (mkCreateRStmt (mkRangeVar name) (mkRangeVar "users")
                               (mkRangeVar "items") (mkRangeVar "ratings")
                               "uid" "iid" "rating" text).

Definition sample_drop (name : string) : Node :=
  T_DropRecStmt (mkDropRecStmt (mkRangeVar name)).

Definition sample_run : Node → M unit :=
  @standard_ProcessUtility sample_backend sample_clock sample_validate.

(** The sample world after [CREATE RECOMMENDER foo ... USING itemcoscf]. *)
Definition sample_built : World :=
  final (sample_run (sample_create "foo" "itemcoscf") sample_world).



(** The sample recommender dropped again. *)
Definition sample_dropped : World :=
  final (sample_run (sample_drop "Foo") sample_built).

(** The statement behind [sample_create "foo" "itemcoscf"], and the sample
    world after its "CREATE TABLES" block. *)
Definition sample_stmt : CreateRStmt :=
  mkCreateRStmt (mkRangeVar "foo") (mkRangeVar "users") (mkRangeVar "items")
                (mkRangeVar "ratings") "uid" "iid" "rating" "itemcoscf".





(** * Properties *)

(** ** Facts on names *)

Module StrFacts.
Import Str.

Lemma lower_app (a b : string) : lower (a +:+ b) = lower a +:+ lower b.
Proof. induction a as [|c a IH]; simpl; [done|]. by rewrite IH. Qed.

Lemma last_char_app (a b : string) :
  b ≠ EmptyString → last_char (a +:+ b) = last_char b.
Proof.
  intros Hb. induction a as [|c a IH]; simpl; [done|].
  rewrite IH. destruct (a +:+ b) eqn:E; [|done].
  destruct a; simpl in E; [by subst|discriminate].
Qed.

Lemma last_char_lower (s : string) : last_char (lower s) = tolower <$> last_char s.
Proof.
  induction s as [|c s IH]; simpl; [done|].
  destruct s as [|c' s]; simpl in *; [done|]. exact IH.
Qed.

Lemma pretty_N_char_digit (x : N) : is_digit (pretty_N_char x) = true.
Proof. unfold pretty_N_char. by repeat case_match. Qed.

Lemma pretty_N_go_last (x : N) (s : string) :
  s ≠ EmptyString → last_char (pretty_N_go x s) = last_char s.
Proof.
  revert s. induction (N.lt_wf_0 x) as [x _ IH]; intros s Hs.
  assert (x = 0 ∨ 0 < x)%N as [->|Hx] by lia.
  - by rewrite pretty_N_go_0.
  - rewrite pretty_N_go_step by done.
    rewrite IH; [|by apply N.div_lt|done].
    simpl. by destruct s.
Qed.

Lemma pretty_pos_last (p : positive) :
  ∃ c, last_char (pretty (Npos p)) = Some c ∧ is_digit c = true.
Proof.
  unfold pretty, pretty_N. rewrite decide_False by done.
  rewrite pretty_N_go_step by lia.
  rewrite pretty_N_go_last by done. simpl.
  eexists; split; [done|]. apply pretty_N_char_digit.
Qed.

(** [%ld] always ends in a decimal digit. *)
Lemma fmt_ld_last (z : Z) :
  ∃ c, last_char (fmt_ld z) = Some c ∧ is_digit c = true.
Proof.
  unfold fmt_ld, pretty, pretty_Z. destruct z as [|p|p].
  - by exists "0"%char.
  - apply pretty_pos_last.
  - destruct (pretty_pos_last p) as (c & Hc & Hd).
    exists c. split; [|done].
    rewrite last_char_app; [done|]. intros E.
    unfold pretty, pretty_positive in E. by rewrite E in Hc.
Qed.

Lemma fmt_ld_nonempty (z : Z) : fmt_ld z ≠ EmptyString.
Proof. destruct (fmt_ld_last z) as (c & Hc & _). intros E. by rewrite E in Hc. Qed.

Lemma tolower_digit (c : ascii) : is_digit c = true → tolower c = c.
Proof.
  unfold is_digit, tolower. intros Hd.
  destruct (65 <=? nat_of_ascii c) eqn:E; [|done].
  apply andb_true_iff in Hd as [_ Hd].
  apply Nat.leb_le in E, Hd. lia.
Qed.

Lemma index_last (base : string) :
  last_char (lower (base +:+ "Index")) = Some "x"%char.
Proof. by rewrite last_char_lower, last_char_app. Qed.

Lemma lower_index_last (base : string) :
  last_char (lower (base +:+ "index")) = Some "x"%char.
Proof. by rewrite last_char_lower, last_char_app. Qed.

Lemma string_length_app (a b : string) :
  String.length (a +:+ b) = String.length a + String.length b.
Proof. induction a as [|c a IH]; simpl; [done|by rewrite IH]. Qed.

End StrFacts.

(** ** Facts on quoted strings and identifiers *)

Module SqlFacts.
Import Sql.

Lemma name_char_not_quote (c : ascii) : name_char c = true → c ≠ quote.
Proof. intros Hc ->. vm_compute in Hc. discriminate Hc. Qed.

Lemma unquote_name_chars (s : string) : all_chars name_char s = true → unquote s = Some s.
Proof.
  induction s as [|c s IH]; [done|]. simpl.
  intros [Hc Hs]%andb_prop.
  rewrite bool_decide_eq_false_2 by (by apply name_char_not_quote).
  by rewrite IH.
Qed.

(** An identifier pasted between quotes is read back as it is. *)
Lemma unquote_identifier (s : string) : identifier s = true → unquote s = Some s.
Proof.
  intros Hs. apply unquote_name_chars.
  destruct s as [|c s]; [done|]. simpl in *.
  apply andb_prop in Hs as [Hc Hs]. rewrite Hs.
  unfold name_char. by rewrite Hc.
Qed.

Lemma unquote_each_identifier (names : list string) :
  Forall (fun n => identifier n = true) names →
  Forall2 (fun v r => read_value v = Some r) (VQuoted <$> names) (VStr <$> names).
Proof.
  induction 1 as [|n names Hn _ IH]; [constructor|].
  rewrite !fmap_cons. constructor; [|done].
  simpl. by rewrite unquote_identifier.
Qed.



Lemma read_identifiers (names : list string) (row : tuple) :
  Forall (fun n => identifier n = true) names →
  Forall2 (fun v r => read_value v = Some r) (VQuoted <$> names) row →
  row = VStr <$> names.
Proof.
  intros Hid. revert row. induction Hid as [|n names Hn _ IH]; intros row Hrow.
  - by apply Forall2_nil_inv_l in Hrow as ->.
  - rewrite fmap_cons in Hrow.
    apply Forall2_cons_inv_l in Hrow as (r & row' & Hr & Hrow' & ->).
    simpl in Hr. rewrite (unquote_identifier n Hn) in Hr. injection Hr as <-.
    rewrite fmap_cons. f_equal. by apply IH.
Qed.

Lemma read_quoted (avs : list string) (row : tuple) :
  Forall2 (fun v r => read_value v = Some r) (VQuoted <$> avs) row →
  ∃ vs, mapM unquote avs = Some vs ∧ row = VStr <$> vs.
Proof.
  revert row. induction avs as [|a avs IH]; intros row Hrow.
  - apply Forall2_nil_inv_l in Hrow as ->. by exists [].
  - rewrite fmap_cons in Hrow.
    apply Forall2_cons_inv_l in Hrow as (r & row' & Hr & Hrow' & ->).
    destruct (IH _ Hrow') as (vs & Hvs & ->).
    simpl in Hr. destruct (unquote a) as [v|] eqn:Ha; [|done].
    injection Hr as <-. exists (v :: vs). split; [|done].
    apply mapM_Some. constructor; [done|]. by apply mapM_Some.
Qed.

End SqlFacts.

(** ** The texts of the statements

    The texts as the handlers print them, on sample names. *)

Example model_texts_item :
  model_text <$> model_tables ItemCF "foo" (mkTimeval 17 5)
  = ["CREATE TABLE fooModel175 (item1 INTEGER NOT NULL, item2 INTEGER NOT NULL, "
     +:+ "similarity REAL NOT NULL);"].
Proof. reflexivity. Qed.

Example model_texts_user :
  model_text <$> model_tables UserCF "foo" (mkTimeval 17 5)
  = ["CREATE TABLE fooModel175 (user1 INTEGER NOT NULL, user2 INTEGER NOT NULL, "
     +:+ "similarity REAL NOT NULL);"].
Proof. reflexivity. Qed.

Example model_texts_svd :
  model_text <$> model_tables SVDfam "foo" (mkTimeval 17 5)
  = ["CREATE TABLE fooUserModel175 (users INTEGER NOT NULL, feature INTEGER NOT NULL, "
     +:+ "value REAL NOT NULL);";
     "CREATE TABLE fooItemModel175 (items INTEGER NOT NULL, feature INTEGER NOT NULL, "
     +:+ "value REAL NOT NULL);"].
Proof. reflexivity. Qed.

Example index_insert_text_cf :
  index_insert_text "fooIndex" ["fooModel175"] "fooView175" 7 ["eu"; "x y"]
  = "INSERT INTO fooIndex VALUES (default, 'fooModel175', 'fooView175', 0, 7, 0, "
    +:+ "0.0, 0.0, localtimestamp, 'eu', 'x y');".
Proof. reflexivity. Qed.

Example index_insert_text_svd :
  index_insert_text "fooIndex" ["fooUserModel175"; "fooItemModel175"] "fooView175" 7 []
  = "INSERT INTO fooIndex VALUES (default, 'fooUserModel175', 'fooItemModel175', "
    +:+ "'fooView175', 0, 7, 0, 0.0, 0.0, localtimestamp);".
Proof. reflexivity. Qed.

Example index_create_text_cf :
  index_create_text itemCosCF "foo" ["region"; "age"]
  = "CREATE TABLE fooIndex (systemId serial, PRIMARY KEY (systemId), "
    +:+ "recModelName VARCHAR NOT NULL, recViewName VARCHAR NOT NULL, "
    +:+ "updateCounter INTEGER NOT NULL, ratingTotal INTEGER NOT NULL, "
    +:+ "queryCounter INTEGER NOT NULL, updateRate REAL NOT NULL, "
    +:+ "queryRate REAL NOT NULL, levelone_timestamp TIMESTAMP NOT NULL, "
    +:+ "region VARCHAR NOT NULL, age VARCHAR NOT NULL);".
Proof. reflexivity. Qed.

(** The longest attribute value and the longest context column name the
    buffers [addition] of the builders and of the "CREATE TABLES" block
    take. *)
Lemma addition_fits (attvalue : string) :
  String.length (addition_text attvalue) < 256 ↔ String.length attvalue < 252.
Proof.
  unfold addition_text. rewrite !StrFacts.string_length_app. simpl. lia.
Qed.

Lemma column_fits (colname : string) :
  String.length (column_text colname) < 64 ↔ String.length colname < 45.
Proof.
  unfold column_text. rewrite !StrFacts.string_length_app. simpl. lia.
Qed.

(** ** Running the handlers: the monad and the engine calls *)

Lemma bind_run {A B} (m : M A) (k : A → M B) (w : World) :
  (m ≫= k) w = match m w with
               | Ok a w' => k a w'
               | Fatal e w' => Fatal e w'
               end.
Proof. reflexivity. Qed.

Lemma bind_Ok {A B} (m : M A) (k : A → M B) (w w' : World) (b : B) :
  (m ≫= k) w = Ok b w' → ∃ a w1, m w = Ok a w1 ∧ k a w1 = Ok b w'.
Proof. rewrite bind_run. destruct (m w) as [a w1|e w1]; [eauto|done]. Qed.

Lemma for_each_cons {A} (body : A → M unit) (x : A) (xs : list A) (w : World) :
  for_each body (x :: xs) w
  = match body x w with
    | Ok _ w1 => for_each body xs w1
    | Fatal e w1 => Fatal e w1
    end.
Proof. reflexivity. Qed.

(** Unfolds the monad operations at the head of a run. *)
Ltac run_step :=
  cbv beta iota delta [mbind M_bind mret M_ret get_tables set_tables emit
                       ereport ereport_ERROR backend_failure];
  cbn [tables ticks log].

Lemma create_Ok (ine : bool) (name : string) cols pkey (w w' : World) :
  recathon_utilityExecute (CREATE_TABLE ine name cols pkey) w = Ok tt w' →
  (tables w !! Str.lower name = None ∧
   w' = with_tables (<[Str.lower name := mkTable (fold_cols cols) (map Str.lower pkey) []]>
                       (tables w))
          (logged (EvUtility (CREATE_TABLE ine name cols pkey)) w))
  ∨ (ine = true ∧ is_Some (tables w !! Str.lower name)
     ∧ w' = logged (EvReport NOTICE (mkError ERRCODE_DUPLICATE_TABLE
                                             "relation already exists, skipping"))
                   (logged (EvUtility (CREATE_TABLE ine name cols pkey)) w)).
Proof.
  unfold recathon_utilityExecute. run_step.
  destruct (negb _); [done|].
  destruct (tables w !! Str.lower name) as [t|] eqn:E.
  - destruct ine; [|done]. intros [= <-]. right. eauto.
  - intros [= <-]. by left.
Qed.

(** A [CREATE TABLE] that went through named its table and its columns
    by identifiers. *)
Lemma create_identifier (ine : bool) (name : string) cols pkey (w w' : World) :
  recathon_utilityExecute (CREATE_TABLE ine name cols pkey) w = Ok tt w' →
  Sql.identifier name = true ∧ forallb Sql.identifier (cols.*1 ++ pkey) = true.
Proof.
  unfold recathon_utilityExecute. run_step.
  destruct (Sql.identifier name); [|done].
  destruct (forallb _ _); [done|done].
Qed.

Lemma sprintf_Ok (size : nat) (text : string) (w w' : World) :
  sprintf size text w = Ok tt w' → w' = w ∧ String.length text < size.
Proof.
  unfold sprintf. case_bool_decide; [|done]. by intros [= <-].
Qed.

Lemma sprintf_final (size : nat) (text : string) (w : World) :
  final (sprintf size text w) = w.
Proof. unfold sprintf. by case_bool_decide. Qed.

Lemma sprintf_each_Ok {A} (size : nat) (f : A → string) (xs : list A) (w w' : World) :
  for_each (fun x => sprintf size (f x)) xs w = Ok tt w' →
  w' = w ∧ Forall (fun x => String.length (f x) < size) xs.
Proof.
  revert w. induction xs as [|x xs IH]; intros w.
  - by intros [= <-].
  - rewrite for_each_cons.
    destruct (sprintf size (f x) w) as [[] w1|] eqn:E; [|done].
    apply sprintf_Ok in E as [-> Hx]. intros Hrun.
    destruct (IH _ Hrun) as [-> Hxs]. split; [done|]. by constructor.
Qed.

Lemma create_new_Ok (name : string) cols pkey (w w' : World) :
  recathon_utilityExecute (CREATE_TABLE false name cols pkey) w = Ok tt w' →
  tables w !! Str.lower name = None ∧
  w' = with_tables (<[Str.lower name := mkTable (fold_cols cols) (map Str.lower pkey) []]>
                      (tables w))
         (logged (EvUtility (CREATE_TABLE false name cols pkey)) w).
Proof. intros Hr. apply create_Ok in Hr as [?|(? & _)]; [done|discriminate]. Qed.

(** An [INSERT] that went through: the row added is the [VALUES] list as
    read. *)
Lemma insert_read_Ok (name : string) (vals : tuple) (w w' : World) :
  recathon_queryExecute (INSERT_INTO name vals) w = Ok tt w' →
  ∃ t row, mapM read_value vals = Some row ∧
       tables w !! Str.lower name = Some t ∧
       List.length row = List.length (tcols t) ∧
       w' = with_tables (<[Str.lower name := add_row row t]> (tables w))
              (logged (EvQuery (INSERT_INTO name vals)) w).
Proof.
  unfold recathon_queryExecute. run_step.
  destruct (mapM read_value vals) as [row|] eqn:Er; [|done].
  destruct (tables w !! Str.lower name) as [t|] eqn:E; simpl; [|done].
  destruct (List.length row =? List.length (tcols t)) eqn:El; simpl; [|done].
  intros [= <-]. exists t, row. split_and!; [done|done| by apply Nat.eqb_eq |done].
Qed.

(** The same for a list without quoted strings, which is read as it
    is. *)
Lemma insert_Ok (name : string) (vals : tuple) (w w' : World) :
  mapM read_value vals = Some vals →
  recathon_queryExecute (INSERT_INTO name vals) w = Ok tt w' →
  ∃ t, tables w !! Str.lower name = Some t ∧
       List.length vals = List.length (tcols t) ∧
       w' = with_tables (<[Str.lower name := add_row vals t]> (tables w))
              (logged (EvQuery (INSERT_INTO name vals)) w).
Proof.
  intros Hplain Hrun.
  apply insert_read_Ok in Hrun as (t & row & Hrow & Ht & Hlen & ->).
  rewrite Hplain in Hrow. injection Hrow as <-. by exists t.
Qed.

(** A [DROP] always returns: afterwards the table is absent, whether or
    not it was there. *)
Lemma drop_run (name : string) (w : World) :
  ∃ reports,
    recathon_utilityExecute (DROP_TABLE name) w
    = Ok tt (mkWorld (delete (Str.lower name) (tables w)) (ticks w)
                     (log w ++ EvUtility (DROP_TABLE name) :: reports))
    ∧ Forall (fun e => ∃ l r, e = EvReport l r) reports.
Proof.
  unfold recathon_utilityExecute. run_step.
  destruct (tables w !! Str.lower name) as [t|] eqn:E.
  - exists []. simpl. split; [|done]. done.
  - eexists [_]. simpl. rewrite delete_id by done. rewrite <-app_assoc.
    split; [done|]. repeat constructor. eauto.
Qed.

Lemma delete_where_Ok (name col lit : string) (w w' : World) :
  recathon_queryExecute (DELETE_WHERE name col lit) w = Ok tt w' →
  ∃ t, tables w !! Str.lower name = Some t ∧
       Str.lower col ∈ colnames t ∧
       w' = with_tables
              (<[Str.lower name :=
                   mkTable (tcols t) (tpkey t)
                     (filter (fun r => row_matches t (Str.lower col) lit r = false)
                             (trows t))]> (tables w))
              (logged (EvQuery (DELETE_WHERE name col lit)) w).
Proof.
  unfold recathon_queryExecute. run_step.
  destruct (tables w !! Str.lower name) as [t|] eqn:E; simpl; [|done].
  case_bool_decide; simpl; [|done].
  intros [= <-]. by exists t.
Qed.

Lemma query_star_Ok (from : string) (w w' : World) (slots : list slot) :
  recathon_queryStart (SELECT_STAR from) w = Ok slots w' →
  ∃ t, tables w !! Str.lower from = Some t ∧
       slots = map (slot_of t) (trows t) ∧
       w' = logged (EvCursor (SELECT_STAR from)) w.
Proof.
  unfold recathon_queryStart. run_step.
  destruct (tables w !! Str.lower from) as [t|] eqn:E; simpl; [|done].
  intros [= <- <-]. by exists t.
Qed.

Lemma query_distinct_Ok (cols : list string) (from : string) (w w' : World)
      (slots : list slot) :
  recathon_queryStart (SELECT_DISTINCT cols from) w = Ok slots w' →
  ∃ t, tables w !! Str.lower from = Some t ∧
       slots = select_distinct cols t ∧
       w' = logged (EvCursor (SELECT_DISTINCT cols from)) w.
Proof.
  unfold recathon_queryStart. run_step.
  destruct (tables w !! Str.lower from) as [t|] eqn:E; simpl; [|done].
  destruct (forallb _ cols); simpl; [|done].
  intros [= <- <-]. by exists t.
Qed.

Lemma touches_refl (K : list string) (w : World) : touches K w w.
Proof. by split. Qed.

Lemma touches_trans (K : list string) (w1 w2 w3 : World) :
  touches K w1 w2 → touches K w2 w3 → touches K w1 w3.
Proof.
  intros [Hd1 Hf1] [Hd2 Hf2]. split.
  - intros k. by rewrite Hd2, Hd1.
  - intros k Hk. by rewrite Hf2, Hf1.
Qed.

Lemma touches_mono (K K' : list string) (w w' : World) :
  K ⊆ K' → touches K w w' → touches K' w w'.
Proof.
  intros HK [Hd Hf]. split; [done|].
  intros k Hk. apply Hf. intros Hin. apply Hk. by apply HK.
Qed.

Lemma touches_replace (k : string) (t t' : table) (w : World) :
  tables w !! k = Some t →
  touches [k] w (with_tables (<[k := t']> (tables w)) w).
Proof.
  intros Hk. split; simpl.
  - intros k'. destruct (decide (k = k')) as [<-|Hne].
    + rewrite lookup_insert_eq, Hk. by split.
    + by rewrite lookup_insert_ne.
  - intros k' Hk'. rewrite lookup_insert_ne; [done|].
    intros ->. apply Hk'. by apply list_elem_of_singleton.
Qed.

(** ** Names of artifacts never clash with the fixed relations *)

Lemma stamp_nonempty (ts : timeval) : stamp ts ≠ EmptyString.
Proof.
  unfold stamp. intros E. apply (StrFacts.fmt_ld_nonempty (tv_usec ts)).
  destruct (Str.fmt_ld (tv_sec ts)); [exact E|discriminate].
Qed.

Lemma stamp_last (ts : timeval) :
  ∃ c, Str.last_char (stamp ts) = Some c ∧ Str.is_digit c = true.
Proof.
  destruct (StrFacts.fmt_ld_last (tv_usec ts)) as (c & Hc & Hd).
  exists c. split; [|done]. unfold stamp.
  by rewrite StrFacts.last_char_app by apply StrFacts.fmt_ld_nonempty.
Qed.

Lemma stamped_name_last (prefix tag : string) (ts : timeval) :
  ∃ c, Str.last_char (Str.lower (prefix +:+ tag +:+ stamp ts)) = Some c
       ∧ Str.is_digit c = true.
Proof.
  destruct (stamp_last ts) as (c & Hc & Hd). exists c. split; [|done].
  rewrite StrFacts.last_char_lower, !StrFacts.last_char_app.
  - rewrite Hc. simpl. by rewrite StrFacts.tolower_digit.
  - apply stamp_nonempty.
  - intros E. apply (stamp_nonempty ts). destruct tag; [exact E|discriminate].
Qed.

(** The two [%ld] conversions are printed back to back without padding,
    so different clock values can give one suffix. *)
Example stamp_runs_together :
  stamp (mkTimeval 1 23) = stamp (mkTimeval 12 3).
Proof. reflexivity. Qed.

Lemma artifact_last (fam : family) (base : string) (b : built_cell) (k : string) :
  k ∈ Str.lower <$> cell_artifacts fam base b →
  ∃ c, Str.last_char k = Some c ∧ Str.is_digit c = true.
Proof.
  unfold cell_artifacts, model_names, view_name.
  destruct fam; simpl; rewrite ?elem_of_cons, ?elem_of_nil;
    intros Hk; destruct_or!; try done; subst k; apply stamped_name_last.
Qed.

Lemma index_not_artifact (fam : family) (base : string) (b : built_cell) :
  Str.lower (index_name base) ∉ Str.lower <$> cell_artifacts fam base b.
Proof.
  intros Hin. apply artifact_last in Hin as (c & Hc & Hd).
  unfold index_name in Hc. rewrite StrFacts.index_last in Hc.
  by injection Hc as <-.
Qed.

(** ** The builders, one cell at a time *)

Section BuilderFacts.

Context `{ModelingBackend}.
Variable wall_clock : nat → timeval.

Lemma append_rows_Ok (name : string) (rows : list tuple) (w w' : World) :
  append_rows name rows w = Ok tt w' →
  ∃ t, tables w !! Str.lower name = Some t ∧
       w' = with_tables (<[Str.lower name := add_rows rows t]> (tables w)) w.
Proof.
  unfold append_rows. run_step.
  destruct (tables w !! Str.lower name) as [t|] eqn:E; simpl; [|done].
  intros [= <-]. by exists t.
Qed.

Lemma append_each_Ok {A} (f : A → string) (g : A → list tuple) (xs : list A)
      (w w' : World) :
  for_each (fun x => append_rows (f x) (g x)) xs w = Ok tt w' →
  ticks w' = ticks w ∧ log w' = log w ∧ touches (Str.lower <$> (f <$> xs)) w w'.
Proof.
  revert w. induction xs as [|x xs IH]; intros w.
  - intros [= <-]. split_and!; [done..|apply touches_refl].
  - rewrite for_each_cons.
    destruct (append_rows (f x) (g x) w) as [[] w1|] eqn:E1; [|done].
    intros Hrest. apply IH in Hrest as (Ht & Hl & Hto).
    apply append_rows_Ok in E1 as (t & Hk & ->).
    simpl in *. split_and!; [done..|].
    eapply touches_trans; [|eapply touches_mono; [|exact Hto]].
    + eapply touches_mono; [|eapply touches_replace; eauto].
      intros k ->%list_elem_of_singleton. by left.
    + intros k Hin. by right.
Qed.

Lemma call_cf_Ok f run (c : populate_call) (w w' : World) (n : Z) :
  call_cf f run c w = Ok n w' →
  ticks w' = ticks w ∧ log w' = log w ++ [EvPopulate f c n]
  ∧ touches (Str.lower <$> pc_models c) w w'.
Proof.
  unfold call_cf. run_step.
  destruct (run c (tables w)) as [[n' rows]|]; simpl; [|done].
  destruct (for_each _ (pc_models c) _) as [[] w1|] eqn:E; [|done].
  intros [= <- <-].
  apply (append_each_Ok (fun m => m) (fun _ => rows)) in E as (Ht & Hl & Hto).
  rewrite list_fmap_id in Hto. simpl in *. split_and!; done.
Qed.

Lemma call_svd_Ok (c : populate_call) (w w' : World) (n : Z) :
  call_svd c w = Ok n w' →
  ticks w' = ticks w ∧ log w' = log w ++ [EvPopulate FSVDsimilarity c n]
  ∧ touches (Str.lower <$> pc_models c) w w'.
Proof.
  unfold call_svd. run_step.
  destruct (SVDsimilarity c (tables w)) as [[[n' urows] irows]|]; simpl; [|done].
  destruct (for_each _ _ _) as [[] w1|] eqn:E; [|done].
  intros [= <- <-].
  apply (append_each_Ok fst snd) in E as (Ht & Hl & Hto).
  simpl in *. split_and!; try done.
  eapply touches_mono; [|destruct Hto as [Hd Hf]; split; [exact Hd|exact Hf]].
  intros k Hk. apply list_elem_of_fmap in Hk as (m & -> & Hm).
  apply list_elem_of_fmap in Hm as ([m' r] & -> & Hm).
  apply list_elem_of_fmap. exists m'. split; [done|].
  apply list_elem_of_lookup in Hm as (i & Hi).
  apply lookup_zip_with_Some in Hi as (? & ? & [= <- <-] & Hi & _).
  by eapply list_elem_of_lookup_2.
Qed.

(** The populate step of a cell: its single backend call, logged with the
    number it returned, and no relation touched but the cell's models. *)
Lemma populate_Ok fam recStmt method models numatts ctx st (w w' : World) (n : Z) :
  populate fam recStmt method models numatts ctx st w = Ok n w' →
  ticks w' = ticks w
  ∧ log w' = log w
       ++ match populate_routine fam method with
          | Some f => [EvPopulate f (populate_args fam recStmt models numatts ctx st) n]
          | None => []
          end
  ∧ (populate_routine fam method = None → n = 0%Z)
  ∧ touches (Str.lower <$> models) w w'.
Proof.
  unfold populate, populate_routine.
  destruct fam; repeat case_bool_decide;
    try (intros Hc; first [apply call_cf_Ok in Hc | apply call_svd_Ok in Hc];
         destruct Hc as (Ht & Hl & Hto); split_and!; done);
    intros [= <- <-]; rewrite app_nil_r; split_and!; try done; apply touches_refl.
Qed.

(** The number a populate step returns is the one the backend routine of
    the method gave for the arguments of the cell in the catalog of that
    moment. *)
Lemma call_cf_result f run (c : populate_call) (w w' : World) (n : Z) :
  call_cf f run c w = Ok n w' → fst <$> run c (tables w) = Some n.
Proof.
  unfold call_cf. run_step.
  destruct (run c (tables w)) as [[n' rows]|]; simpl; [|done].
  destruct (for_each _ (pc_models c) _) as [[] w1|] eqn:E; [|done].
  by intros [= <- <-].
Qed.

Lemma call_svd_result (c : populate_call) (w w' : World) (n : Z) :
  call_svd c w = Ok n w' → (fun r => r.1.1) <$> SVDsimilarity c (tables w) = Some n.
Proof.
  unfold call_svd. run_step.
  destruct (SVDsimilarity c (tables w)) as [[[n' urows] irows]|]; simpl; [|done].
  destruct (for_each _ _ _) as [[] w1|] eqn:E; [|done].
  by intros [= <- <-].
Qed.

Lemma populate_result fam recStmt method models numatts ctx st (w w' : World) (n : Z) :
  populate fam recStmt method models numatts ctx st w = Ok n w' →
  match populate_routine fam method with
  | Some f => backend_ratings f (populate_args fam recStmt models numatts ctx st)
                              (tables w) = Some n
  | None => n = 0%Z
  end.
Proof.
  unfold populate, populate_routine.
  destruct fam; repeat case_bool_decide; simpl;
    first [apply call_cf_result | apply call_svd_result | by intros [= <- <-]].
Qed.

Lemma gettimeofday_run (w : World) :
  gettimeofday wall_clock w
  = Ok (wall_clock (ticks w))
       (mkWorld (tables w) (S (ticks w)) (log w ++ [EvClock (wall_clock (ticks w))])).
Proof. reflexivity. Qed.

(** Creating the model tables of a cell: every name is new, and distinct
    from the others. *)
Lemma create_all_Ok (ms : list (string * list (string * sqltype))) (w w' : World) :
  for_each (fun m => sprintf 1024 (model_text m);;
                     recathon_utilityExecute (CREATE_TABLE false m.1 m.2 [])) ms w
  = Ok tt w' →
  ticks w' = ticks w
  ∧ log w' = log w ++ map (fun m => EvUtility (CREATE_TABLE false m.1 m.2 [])) ms
  ∧ NoDup (Str.lower <$> ms.*1)
  ∧ (∀ k, k ∈ Str.lower <$> ms.*1 → tables w !! k = None ∧ is_Some (tables w' !! k))
  ∧ (∀ k, k ∉ Str.lower <$> ms.*1 → tables w' !! k = tables w !! k)
  ∧ tables w' = with_models ms (tables w)
  ∧ Forall (fun n => Sql.identifier n = true) ms.*1.
Proof.
  revert w. induction ms as [|m ms IH]; intros w.
  - intros [= <-]. rewrite app_nil_r. split_and!; try done.
    + constructor.
    + intros k Hk. by apply elem_of_nil in Hk.
  - rewrite for_each_cons.
    match goal with |- context [match ?r with Ok _ _ => _ | Fatal _ _ => _ end] =>
      destruct r as [[] w1|] eqn:E1; [|done] end.
    apply bind_Ok in E1 as ([] & w0 & Hbuf & E1).
    apply sprintf_Ok in Hbuf as [-> _].
    intros Hrest. apply IH in Hrest as (Ht & Hl & Hnd & Hnew & Hfr & HT & Hid).
    pose proof (create_identifier _ _ _ _ _ _ E1) as [Hname _].
    apply create_new_Ok in E1 as (Hk & ->). simpl in *.
    assert (Str.lower m.1 ∉ Str.lower <$> ms.*1) as Hnotin.
    { intros Hin. apply Hnew in Hin as [Hin _].
      by rewrite lookup_insert_eq in Hin. }
    split_and!.
    + done.
    + by rewrite Hl, <-app_assoc.
    + by constructor.
    + intros k Hin. apply elem_of_cons in Hin as [->|Hin].
      * split; [done|]. rewrite Hfr by done. by rewrite lookup_insert_eq.
      * destruct (Hnew k Hin) as [Hn Hs]. split; [|done].
        rewrite lookup_insert_ne in Hn; [done|]. by intros <-.
    + intros k Hk'. apply not_elem_of_cons in Hk' as [Hne Hk'].
      rewrite Hfr by done. by rewrite lookup_insert_ne.
    + done.
    + by constructor.
Qed.

(** The [VALUES] list of a cell as the engine reads it, when the names
    in it are identifiers: the names as they are, the attribute values
    unquoted. *)
Lemma index_row_read (models : list string) (view : string) (n : Z)
      (avs : list string) (row : tuple) :
  Forall (fun m => Sql.identifier m = true) models →
  Sql.identifier view = true →
  mapM read_value (index_row models view n avs) = Some row →
  ∃ vs, mapM Sql.unquote avs = Some vs
        ∧ row = VDefault :: map VStr models
                ++ [VStr view; VInt 0; VInt n; VInt 0; VReal 0 1; VReal 0 1;
                    VLocalTimestamp]
                ++ map VStr vs.
Proof.
  intros Hmodels Hview Hrow. apply mapM_Some in Hrow. unfold index_row in Hrow.
  apply Forall2_cons_inv_l in Hrow as (r0 & row1 & Hr0 & Hrow & ->).
  apply Forall2_app_inv_l in Hrow as (rm & row2 & Hrm & Hrow & ->).
  apply Forall2_app_inv_l in Hrow as (rf & rv & Hrf & Hrv & ->).
  injection Hr0 as <-.
  apply (SqlFacts.read_identifiers models rm Hmodels) in Hrm as ->.
  repeat (apply Forall2_cons_inv_l in Hrf as (? & ? & ?Hr & Hrf & ->)).
  apply Forall2_nil_inv_l in Hrf as ->.
  simpl in Hr. rewrite (SqlFacts.unquote_identifier view Hview) in Hr.
  simpl in *. simplify_eq.
  destruct (SqlFacts.read_quoted avs rv Hrv) as (vs & Hvs & ->).
  by exists vs.
Qed.

(** A cell that goes through: one clock read, new relations under the
    names derived from it, one more row in the index table, and nothing
    else changed. *)
Lemma build_cell_Ok fam recStmt method numatts st ctx (w w' : World) :
  build_cell wall_clock fam recStmt method numatts st ctx w = Ok tt w' →
  ∃ n t0,
    let b := mkBuilt (wall_clock (ticks w)) ctx n in
    let base := relname (relation recStmt) in
    ticks w' = S (ticks w)
    ∧ log w' = log w ++ cell_events fam recStmt method numatts st b
    ∧ (populate_routine fam method = None → n = 0%Z)
    ∧ NoDup (Str.lower <$> cell_artifacts fam base b)
    ∧ (∀ k, k ∈ Str.lower <$> cell_artifacts fam base b →
            tables w !! k = None ∧ is_Some (tables w' !! k))
    ∧ tables w !! Str.lower (index_name base) = Some t0
    ∧ tables w' !! Str.lower (index_name base) = Some (add_row (cell_row fam recStmt b) t0)
    ∧ List.length (cell_row fam recStmt b) = List.length (tcols t0)
    ∧ (∀ k, k ∉ Str.lower <$> cell_artifacts fam base b →
            k ≠ Str.lower (index_name base) → tables w' !! k = tables w !! k)
    ∧ mapM Sql.unquote (cell_attvalues b) = Some (cell_stored b)
    ∧ cell_called fam recStmt method numatts st (tables w) b.
Proof.
  unfold build_cell. intros Hrun.
  apply bind_Ok in Hrun as (ts & w1 & Hclock & Hrun).
  rewrite gettimeofday_run in Hclock. injection Hclock as <- <-.
  apply bind_Ok in Hrun as ([] & w2' & Hnames & Hrun).
  apply sprintf_each_Ok in Hnames as [-> _].
  apply bind_Ok in Hrun as ([] & w2 & Hmodels & Hrun).
  apply bind_Ok in Hrun as ([] & w3' & Hbuf & Hrun).
  apply sprintf_Ok in Hbuf as [-> _].
  apply bind_Ok in Hrun as ([] & w3 & Hview & Hrun).
  apply bind_Ok in Hrun as ([] & w4' & Hbuf & Hrun).
  apply sprintf_Ok in Hbuf as [-> _].
  apply bind_Ok in Hrun as ([] & w4 & Hdummy & Hrun).
  apply bind_Ok in Hrun as (n & w5 & Hpop & Hrun).
  apply bind_Ok in Hrun as ([] & w6' & Hadds & Hrun).
  apply sprintf_each_Ok in Hadds as [-> _].
  apply bind_Ok in Hrun as ([] & w6 & Hbuf & Hrun).
  apply sprintf_Ok in Hbuf as [-> _].
  apply create_all_Ok in Hmodels as (Ht2 & Hl2 & Hnd2 & Hnew2 & Hfr2 & HT2 & Hid2).
  pose proof (create_identifier _ _ _ _ _ _ Hview) as [Hidv _].
  apply create_new_Ok in Hview as (Hkv & ->).
  apply insert_Ok in Hdummy as (tv & Hv & _ & ->); [|reflexivity].
  pose proof (populate_result _ _ _ _ _ _ _ _ _ _ Hpop) as Hres.
  apply populate_Ok in Hpop as (Ht5 & Hl5 & Hn0 & [Hd5 Hf5]).
  apply insert_read_Ok in Hrun as (t5 & row & Hrow & Hidx5 & Hlen & ->).
  apply index_row_read in Hrow as (vs & Hvs & ->); [|done..].
  unfold with_tables, logged in *. cbn [tables ticks log] in *.
  rewrite lookup_insert_eq in Hv. injection Hv as <-.
  rewrite insert_insert_eq in Hres.
  set (base := relname (relation recStmt)) in *.
  set (ts := wall_clock (ticks w)) in *.
  set (b := mkBuilt ts ctx n).
  assert (cell_stored b = vs) as Hstored.
  { unfold cell_stored, cell_attvalues. simpl. by rewrite Hvs. }
  assert (cell_row fam recStmt b
          = VDefault :: map VStr (model_names fam base ts)
            ++ [VStr (view_name base ts); VInt 0; VInt n; VInt 0; VReal 0 1; VReal 0 1;
                VLocalTimestamp] ++ map VStr vs) as Hcr.
  { unfold cell_row. by rewrite Hstored. }
  rewrite <-Hcr in *.
  pose proof (index_not_artifact fam base b) as Hidx.
  unfold cell_artifacts in Hidx. rewrite fmap_app in Hidx. simpl in Hidx.
  apply not_elem_of_app in Hidx as [Hidxm Hidxv].
  apply not_elem_of_cons in Hidxv as [Hidxv _].
  assert (Str.lower (view_name base ts) ≠ Str.lower (index_name base)) as Hvi
    by (intros E; by apply Hidxv).
  assert (Str.lower (view_name base ts) ∉ Str.lower <$> model_names fam base ts) as Hvm.
  { intros Hin. apply Hnew2 in Hin as [_ [t Ht]]. by rewrite Hkv in Ht. }
  assert (tables w !! Str.lower (index_name base) = Some t5) as Hidx0.
  { rewrite <-Hidx5, Hf5 by done.
    rewrite !lookup_insert_ne by done. symmetry. by apply Hfr2. }
  exists n, t5. split_and!.
  - by rewrite Ht5.
  - rewrite Hl5, Hl2. unfold cell_events. simpl.
    rewrite <-!app_assoc. simpl. by rewrite <-?app_assoc.
  - done.
  - unfold cell_artifacts. rewrite fmap_app. apply NoDup_app. split_and!.
    + done.
    + intros k Hk. simpl. rewrite list_elem_of_singleton. by intros ->.
    + simpl. apply NoDup_singleton.
  - intros k Hk. unfold cell_artifacts in Hk. rewrite fmap_app in Hk.
    apply elem_of_app in Hk as [Hk|Hk].
    + destruct (Hnew2 k Hk) as [Hnone Hsome]. split; [done|].
      assert (k ≠ Str.lower (index_name base)) by (by intros ->).
      assert (k ≠ Str.lower (view_name base ts)) by (by intros ->).
      rewrite lookup_insert_ne by done. apply Hd5.
      by rewrite !lookup_insert_ne by done.
    + simpl in Hk. apply list_elem_of_singleton in Hk as ->. split.
      * by rewrite <-Hfr2.
      * rewrite lookup_insert_ne by done. apply Hd5.
        by rewrite lookup_insert_eq.
  - done.
  - by rewrite lookup_insert_eq.
  - done.
  - intros k Hk Hki. unfold cell_artifacts in Hk. rewrite fmap_app in Hk.
    apply not_elem_of_app in Hk as [Hkm Hkv'].
    simpl in Hkv'. apply not_elem_of_cons in Hkv' as [Hkv' _].
    rewrite lookup_insert_ne by done. rewrite Hf5 by done.
    rewrite !lookup_insert_ne by done. by apply Hfr2.
  - change (mapM Sql.unquote (default [] (snd <$> ctx)) = Some (cell_stored b)).
    by rewrite Hstored.
  - unfold cell_called, cell_tables. cbv zeta. fold base. simpl bc_time.
    rewrite <-HT2. exact Hres.
Qed.

Lemma add_rows_cons (r : tuple) (rs : list tuple) (t : table) :
  add_rows rs (add_row r t) = add_rows (r :: rs) t.
Proof. unfold add_rows, add_row. simpl. by rewrite <-app_assoc. Qed.

Lemma add_rows_nil (t : table) : add_rows [] t = t.
Proof. unfold add_rows. rewrite app_nil_r. by destruct t. Qed.

Lemma cells_built_nil fam recStmt method numatts st (w : World) :
  cells_built wall_clock fam recStmt method numatts st [] w w.
Proof.
  unfold cells_built. simpl. split_and!; try done.
  - by rewrite app_nil_r.
  - constructor.
  - intros k Hk. by apply elem_of_nil in Hk.
  - intros t0 Ht0. by rewrite add_rows_nil.
Qed.

Lemma cells_built_cons fam recStmt method numatts st ctx bs (w w1 w' : World) :
  build_cell wall_clock fam recStmt method numatts st ctx w = Ok tt w1 →
  cells_built wall_clock fam recStmt method numatts st bs w1 w' →
  ∃ n, cells_built wall_clock fam recStmt method numatts st
                   (mkBuilt (wall_clock (ticks w)) ctx n :: bs) w w'.
Proof.
  intros Hcell (Ht & Htime & Hl & Hz & Hnd & Hnew & Hidx & Hfr & Hsto & Hcall).
  apply build_cell_Ok in Hcell
    as (n & t0 & Ht1 & Hl1 & Hz1 & Hnd1 & Hnew1 & Hidx0 & Hidx1 & _ & Hfr1
        & Hsto1 & Hcall1).
  cbv zeta in *.
  set (b := mkBuilt (wall_clock (ticks w)) ctx n) in *.
  set (base := relname (relation recStmt)) in *.
  exists n. unfold cells_built. cbv zeta. fold b base.
  rewrite !bind_cons, fmap_app.
  assert (∀ k, k ∈ Str.lower <$> cell_artifacts fam base b →
               k ∉ Str.lower <$> (bs ≫= cell_artifacts fam base)) as Hdisj.
  { intros k Hk Hk'. apply Hnew1 in Hk as [_ [t Hsome]].
    apply Hnew in Hk' as [Hnone _]. by rewrite Hnone in Hsome. }
  assert (∀ k, k ∈ Str.lower <$> (bs ≫= cell_artifacts fam base) →
               k ≠ Str.lower (index_name base)) as Hnotidx.
  { intros k Hk ->. apply Hnew in Hk as [Hnone _]. by rewrite Hidx1 in Hnone. }
  split_and!.
  - simpl. lia.
  - intros [|i] b' Hb'; simpl in Hb'.
    + injection Hb' as <-. simpl. f_equal. lia.
    + rewrite (Htime i b' Hb'), Ht1. f_equal. lia.
  - rewrite Hl, Hl1. by rewrite <-app_assoc.
  - intros Hnone. constructor; [by apply Hz1|by apply Hz].
  - apply NoDup_app. split_and!; done.
  - intros k Hk. apply elem_of_app in Hk as [Hk|Hk].
    + destruct (Hnew1 k Hk) as [Hn Hs]. split; [done|].
      rewrite Hfr; [done|by apply Hdisj|].
      intros ->. by apply (index_not_artifact fam base b).
    + destruct (Hnew k Hk) as [Hn Hs]. split; [|done].
      rewrite <-Hfr1; [done| |by apply Hnotidx].
      intros Hk'. by apply (Hdisj k).
  - intros t0' Ht0'. rewrite Hidx0 in Ht0'. injection Ht0' as <-.
    rewrite (Hidx _ Hidx1). by rewrite add_rows_cons.
  - intros k Hk Hki. apply not_elem_of_app in Hk as [Hk1 Hk2].
    rewrite Hfr by done. by apply Hfr1.
  - by constructor.
  - constructor.
    + by exists (tables w).
    + eapply Forall_impl; [exact Hcall|].
      intros b' (T & HT & Hb'). exists T. split; [|done].
      intros k Hk Hki. apply not_elem_of_app in Hk as [Hk1 Hk2].
      rewrite HT by done. by apply Hfr1.
Qed.

Lemma read_attvalues_Ok (sl : slot) (attnames vs : list string) (w w' : World) :
  read_attvalues sl attnames w = Ok vs w' →
  mapM (getTupleString sl) attnames = Some vs ∧ w' = w.
Proof.
  unfold read_attvalues.
  destruct (mapM (getTupleString sl) attnames) as [vs'|]; [|done].
  by intros [= <- <-].
Qed.

(** The [for (;;)] loop over the result rows: one cell per row, in order. *)
Lemma cell_loop_Ok fam recStmt method numatts st attnames slots (w w' : World) :
  for_each (fun sl =>
              attvalues ← read_attvalues sl attnames;
              build_cell wall_clock fam recStmt method numatts st
                         (Some (attnames, attvalues))) slots w = Ok tt w' →
  ∃ bs, Forall2 (cell_of_slot attnames) slots bs
        ∧ cells_built wall_clock fam recStmt method numatts st bs w w'.
Proof.
  revert w. induction slots as [|sl slots IH]; intros w.
  - intros [= <-]. exists []. split; [constructor|apply cells_built_nil].
  - rewrite for_each_cons.
    match goal with |- context [match ?m with Ok _ _ => _ | Fatal _ _ => _ end] =>
      destruct m as [[] w1|] eqn:Hbody; [|done] end.
    intros Hrest. apply IH in Hrest as (bs & Hslots & Hbuilt).
    apply bind_Ok in Hbody as (vs & w0 & Hread & Hcell).
    apply read_attvalues_Ok in Hread as [Hvs ->].
    destruct (cells_built_cons _ _ _ _ _ _ _ _ _ _ Hcell Hbuilt) as (n & Hall).
    eexists. split; [|exact Hall].
    constructor; [|done]. by exists vs.
Qed.

Lemma precompute_run fam recStmt method (w : World) :
  ∃ st, precompute fam recStmt method w
        = Ok st (mkWorld (tables w) (ticks w)
                         (log w ++ precompute_events fam recStmt method st)).
Proof.
  unfold precompute, precompute_events, precompute_cos, precompute_pear.
  destruct fam; repeat case_bool_decide; run_step;
    repeat match goal with
           | |- context [vector_lengths ?a ?b ?c ?d ?T] =>
               destruct (vector_lengths a b c d T) as [[? ?] ?]
           | |- context [pearson_info ?a ?b ?c ?d ?T] =>
               destruct (pearson_info a b c d T) as [[[? ?] ?] ?]
           end;
    eexists; cbn [tables ticks log]; rewrite ?app_nil_r; try reflexivity;
    by destruct w.
Qed.

(** The statistics a builder obtains are the backend's, for the source
    relations as they are when the builder starts. *)
Lemma precompute_stats recStmt method st (w w' : World) :
  precompute (family_of method) recStmt method w = Ok st w' →
  st = backend_stats recStmt method (tables w).
Proof.
  unfold precompute, precompute_cos, precompute_pear, backend_stats.
  destruct method; simpl; run_step;
    repeat match goal with
           | |- context [vector_lengths ?a ?b ?c ?d ?T] =>
               destruct (vector_lengths a b c d T) as [[? ?] ?]
           | |- context [pearson_info ?a ?b ?c ?d ?T] =>
               destruct (pearson_info a b c d T) as [[[? ?] ?] ?]
           end;
    by intros [= <- <-].
Qed.

Lemma copy_names_Ok (attList names : list string) (n : nat) (w w' : World) :
  copy_names attList n w = Ok names w' →
  w' = w ∧ n ≤ List.length attList ∧ names = take n attList
  ∧ Forall (fun a => String.length a < 256) names.
Proof.
  revert attList names. induction n as [|n IH]; intros attList names.
  - destruct attList; simpl; intros [= <- <-];
      (split_and!; [done|simpl; lia|done|constructor]).
  - destruct attList as [|colname next]; [done|]. simpl.
    intros Hrun. apply bind_Ok in Hrun as ([] & w1 & Hbuf & Hrun).
    apply sprintf_Ok in Hbuf as [-> Hlen].
    apply bind_Ok in Hrun as (rest & w2 & Hrest & Hret).
    injection Hret as <- <-.
    apply IH in Hrest as (-> & Hn & -> & Hall).
    split_and!; [done|lia|done|by constructor].
Qed.

(** A builder that goes through. *)
Lemma similarity_Ok fam recStmt attList numatts method (w w' : World) :
  similarity wall_clock fam recStmt attList numatts method w = Ok tt w' →
  ∃ st bs,
    let w1 := mkWorld (tables w) (ticks w)
                      (log w ++ precompute_events fam recStmt method st) in
    precompute fam recStmt method w = Ok st w1 ∧
    if bool_decide (0 < numatts)%Z
    then ∃ t, Z.to_nat numatts ≤ List.length attList
              ∧ tables w !! Str.lower (relname (usertable recStmt)) = Some t
              ∧ Forall2 (cell_of_slot (take (Z.to_nat numatts) attList))
                        (select_distinct attList t) bs
              ∧ cells_built wall_clock fam recStmt method numatts st bs
                  (logged (EvCursor (SELECT_DISTINCT attList (relname (usertable recStmt))))
                          w1) w'
              ∧ select_distinct attList t ≠ []
    else ∃ n, bs = [mkBuilt (wall_clock (ticks w)) None n]
              ∧ cells_built wall_clock fam recStmt method numatts st bs w1 w'.
Proof.
  unfold similarity. intros Hrun.
  apply bind_Ok in Hrun as (st & w1 & Hpre & Hrun).
  destruct (precompute_run fam recStmt method w) as (st' & Hpre').
  rewrite Hpre' in Hpre. injection Hpre as -> <-.
  exists st. case_bool_decide.
  - apply bind_Ok in Hrun as (attnames & w2 & Hnames & Hrun).
    apply copy_names_Ok in Hnames as (-> & Hn & -> & _).
    apply bind_Ok in Hrun as ([] & w2 & Hbuf & Hrun).
    apply sprintf_Ok in Hbuf as [-> _].
    apply bind_Ok in Hrun as (slots & w3 & Hquery & Hrun).
    apply query_distinct_Ok in Hquery as (t & Ht & -> & ->).
    apply bind_Ok in Hrun as ([] & w4 & Hloop & Hend).
    apply cell_loop_Ok in Hloop as (bs & Hslots & Hbuilt).
    assert (w' = w4 ∧ select_distinct attList t ≠ []) as [-> Hrows].
    { unfold recathon_queryEnd, free_attvalues in Hend. run_step.
      destruct (select_distinct attList t); [done|].
      by injection Hend as <-. }
    exists bs. cbv zeta. split; [done|]. by exists t.
  - destruct (cells_built_cons fam recStmt method numatts st None [] _ _ _ Hrun
                (cells_built_nil _ _ _ _ _ _)) as (n & Hbuilt).
    eexists. cbv zeta. split; [done|]. by exists n.
Qed.

(** The "CREATE TABLES" block when it goes through: the index table is
    new and empty, the properties table is kept if there was one and is
    given its default row otherwise, and only the recommender-list table
    changes besides. *)
Lemma create_tables_Ok recStmt attr_list method numatts (w w' : World) :
  create_tables recStmt attr_list method numatts w = Ok tt w' →
  let idx := Str.lower (index_name (relname (relation recStmt))) in
  ticks w' = ticks w
  ∧ (∃ l, log w' = log w ++ l ∧ Forall statement_or_report l)
  ∧ tables w !! idx = None
  ∧ tables w' !! idx = Some (fresh_index method attr_list)
  ∧ tables w' !! "recathonproperties"
    = Some (default default_properties (tables w !! "recathonproperties"))
  ∧ (∀ k, k ≠ idx → k ≠ "recathonproperties" → k ≠ "recmodelscatalogue" →
          tables w' !! k = tables w !! k).
Proof.
  unfold create_tables. intros Hrun. cbv zeta.
  pose proof (StrFacts.index_last (relname (relation recStmt))) as Hlast.
  fold (index_name (relname (relation recStmt))) in *.
  set (idx := index_name (relname (relation recStmt))) in *.
  assert (Str.lower idx ≠ "recathonproperties") as Hip
    by (intros E; by rewrite E in Hlast).
  assert (Str.lower idx ≠ "recmodelscatalogue") as Hic
    by (intros E; by rewrite E in Hlast).
  apply bind_Ok in Hrun as ([] & w0 & Hbuf & Hrun).
  apply sprintf_Ok in Hbuf as [-> _].
  apply bind_Ok in Hrun as ([] & w1 & Hcat & Hrun).
  apply bind_Ok in Hrun as ([] & w1' & Hbuf & Hrun).
  apply sprintf_Ok in Hbuf as [-> _].
  apply bind_Ok in Hrun as ([] & w2 & Hrow & Hrun).
  apply bind_Ok in Hrun as (props & w3 & Hex & Hrun).
  injection Hex as <- <-.
  apply bind_Ok in Hrun as ([] & w4 & Hprops & Hrun).
  apply bind_Ok in Hrun as ([] & w4' & Hbuf & Hrun).
  apply sprintf_each_Ok in Hbuf as [-> _].
  apply bind_Ok in Hrun as ([] & w4' & Hbuf & Hidx).
  apply sprintf_Ok in Hbuf as [-> _].
  apply create_new_Ok in Hidx as (Hnew & ->).
  apply insert_read_Ok in Hrow as (tc & crow & _ & Htc & _ & ->).
  change (Str.lower "RecModelsCatalogue") with "recmodelscatalogue" in *.
  assert (ticks w1 = ticks w ∧ (∃ l, log w1 = log w ++ l ∧ Forall statement_or_report l)
          ∧ ∀ k, k ≠ "recmodelscatalogue" → tables w1 !! k = tables w !! k)
    as (Ht1 & (l1 & Hl1 & Hs1) & Hf1).
  { apply create_Ok in Hcat as [(Hn & ->)|(_ & Hs & ->)].
    - simpl. split_and!; [done| |].
      + eexists [_]. split; [done|]. by repeat constructor.
      + intros k Hk. by rewrite lookup_insert_ne.
    - simpl. split_and!; [done| |done].
      eexists [_; _]. rewrite <-app_assoc.
      split; [done|]. by repeat constructor. }
  unfold with_tables, logged in *. cbn [tables ticks log] in *.
  assert (tables w4 !! "recathonproperties"
          = Some (default default_properties (tables w !! "recathonproperties"))
          ∧ ticks w4 = ticks w
          ∧ (∃ l, log w4 = log w ++ l ∧ Forall statement_or_report l)
          ∧ ∀ k, k ≠ "recathonproperties" → k ≠ "recmodelscatalogue" →
                 tables w4 !! k = tables w !! k)
    as (Hp4 & Ht4 & (l4 & Hl4 & Hs4) & Hf4).
  { revert Hprops. cbn [tables].
    rewrite lookup_insert_ne by done. rewrite Hf1 by done.
    destruct (tables w !! "recathonproperties") as [tp|] eqn:Hp; simpl.
    - intros [= <-].
      cbn [tables ticks log]. split_and!.
      + rewrite lookup_insert_ne by done. by rewrite Hf1.
      + done.
      + eexists. rewrite Hl1, <-app_assoc. split; [done|].
        apply Forall_app. split; [done|]. by repeat constructor.
      + intros k Hk1 Hk2. rewrite lookup_insert_ne by done. by apply Hf1.
    - intros Hrun.
      apply bind_Ok in Hrun as ([] & w5' & Hbuf & Hrun).
      apply sprintf_Ok in Hbuf as [-> _].
      apply bind_Ok in Hrun as ([] & w5 & Hc & Hrun).
      apply bind_Ok in Hrun as ([] & w5' & Hbuf & Hi).
      apply sprintf_Ok in Hbuf as [-> _].
      apply create_new_Ok in Hc as (_ & ->).
      apply insert_Ok in Hi as (tp & Htp & _ & ->); [|reflexivity].
      unfold with_tables, logged in *. cbn [tables ticks log] in *.
      change (Str.lower "RecathonProperties") with "recathonproperties" in *.
      rewrite lookup_insert_eq in Htp. injection Htp as <-.
      split_and!.
      + by rewrite lookup_insert_eq.
      + done.
      + eexists. rewrite Hl1, <-!app_assoc. split; [done|].
        apply Forall_app. split; [done|]. by repeat constructor.
      + intros k Hk1 Hk2. rewrite !lookup_insert_ne by done. by apply Hf1. }
  cbn [tables ticks log]. split_and!.
  - done.
  - eexists. rewrite Hl4, <-app_assoc. split; [done|].
    apply Forall_app. split; [done|]. by repeat constructor.
  - rewrite <-Hf4; done.
  - by rewrite lookup_insert_eq.
  - rewrite lookup_insert_ne by done. done.
  - intros k Hk1 Hk2 Hk3. rewrite lookup_insert_ne by done. by apply Hf4.
Qed.

End BuilderFacts.

(** ** The drop handler *)

Lemma dropped_nil (w : World) : dropped [] w w.
Proof.
  split_and!; [done| |done].
  exists []. rewrite app_nil_r. by split_and!.
Qed.

Lemma dropped_app (ns1 ns2 : list string) (w1 w2 w3 : World) :
  dropped ns1 w1 w2 → dropped ns2 w2 w3 → dropped (ns1 ++ ns2) w1 w3.
Proof.
  intros (Ht1 & (l1 & Hl1 & Hs1 & Hr1) & HT1) (Ht2 & (l2 & Hl2 & Hs2 & Hr2) & HT2).
  split_and!.
  - congruence.
  - exists (l1 ++ l2). split_and!.
    + by rewrite Hl2, Hl1, <-app_assoc.
    + unfold statements, drop_statements in *.
      by rewrite filter_app, fmap_app, Hs1, Hs2.
    + by apply Forall_app.
  - intros k. rewrite HT2, HT1, fmap_app.
    repeat case_bool_decide; try done.
    + exfalso. apply H0. apply elem_of_app. by right.
    + exfalso. apply H1. apply elem_of_app. by left.
    + apply elem_of_app in H1 as [?|?]; done.
Qed.

Lemma statements_reports (l : list event) :
  Forall (fun e => ∃ lv r, e = EvReport lv r) l → statements l = [].
Proof.
  induction 1 as [|e l (lv & r & ->) _ IH]; [done|].
  unfold statements in *. by rewrite filter_cons_False by (by intros []).
Qed.

Lemma drop_one (name : string) (w : World) :
  ∃ w', recathon_utilityExecute (DROP_TABLE name) w = Ok tt w' ∧ dropped [name] w w'.
Proof.
  destruct (drop_run name w) as (reports & Hrun & Hrep).
  eexists. split; [exact Hrun|]. split_and!; cbn [tables ticks log].
  - done.
  - eexists. split; [done|]. split.
    + unfold statements. rewrite filter_cons_True by done. simpl. f_equal.
      by apply statements_reports.
    + constructor; [done|].
      eapply Forall_impl; [exact Hrep|]. by intros e (lv & r & ->).
  - intros k. simpl. case_bool_decide as Hk.
    + apply list_elem_of_singleton in Hk as ->. apply lookup_delete_eq.
    + rewrite lookup_delete_ne; [done|]. intros <-. apply Hk.
      by apply list_elem_of_singleton.
Qed.

Lemma drop_if_set_run (name : option string) (w : World) :
  ∃ w', drop_if_set name w = Ok tt w' ∧ dropped (omap id [name]) w w'.
Proof.
  destruct name as [n|]; simpl.
  - apply drop_one.
  - exists w. split; [done|apply dropped_nil].
Qed.

(** One pass of the drop loop always returns. *)
Lemma drop_cell_run (c : cell_node) (w : World) :
  ∃ w', drop_cell c w = Ok tt w' ∧ dropped (cell_names c) w w'.
Proof.
  unfold drop_cell, cell_names.
  destruct (drop_if_set_run (modelname1 c) w) as (w1 & H1 & D1).
  destruct (drop_if_set_run (modelname2 c) w1) as (w2 & H2 & D2).
  destruct (drop_if_set_run (viewname c) w2) as (w3 & H3 & D3).
  exists w3. split.
  - rewrite bind_run, H1, bind_run, H2. exact H3.
  - pose proof (dropped_app _ _ _ _ _ D1 (dropped_app _ _ _ _ _ D2 D3)) as D.
    revert D. by destruct (modelname1 c), (modelname2 c), (viewname c).
Qed.

(** The whole drop loop always returns, with every name dropped. *)
Lemma drop_loop_run (cs : list cell_node) (w : World) :
  ∃ w', for_each drop_cell cs w = Ok tt w' ∧ dropped (cs ≫= cell_names) w w'.
Proof.
  revert w. induction cs as [|c cs IH]; intros w.
  - exists w. split; [done|apply dropped_nil].
  - destruct (drop_cell_run c w) as (w1 & H1 & D1).
    destruct (IH w1) as (w2 & H2 & D2).
    exists w2. split.
    + by rewrite for_each_cons, H1.
    + rewrite bind_cons. by eapply dropped_app.
Qed.

Lemma assoc_zip_in (c : string) (cols : list string) (r : tuple) (v : sqlval) :
  assoc c (zip cols r) = Some v → c ∈ cols.
Proof.
  revert r. induction cols as [|c' cols IH]; intros [|x r]; simpl; try done.
  case_bool_decide as Hc.
  - subst. intros _. by left.
  - intros Hr. right. by eapply IH.
Qed.

Lemma catalogue_rows_in (lit : string) (T : gmap string table) (tc : table) :
  T !! "recmodelscatalogue" = Some tc →
  catalogue_rows lit T ≠ [] →
  "recommenderindexname" ∈ colnames tc.
Proof.
  unfold catalogue_rows. intros -> Hne.
  destruct (filter _ _) as [|sl rest] eqn:E; [done|].
  assert (sl ∈ sl :: rest) as Hin by (by left).
  rewrite <-E in Hin. apply list_elem_of_filter in Hin as [Hsl Hin].
  apply list_elem_of_fmap in Hin as (r & -> & _).
  by eapply assoc_zip_in.
Qed.

Lemma catalogue_rows_deleted (lit : string) (T : gmap string table) (tc : table) :
  catalogue_rows lit
    (<["recmodelscatalogue" :=
         mkTable (tcols tc) (tpkey tc)
           (filter (fun r => row_matches tc "recommenderindexname" lit r = false)
                   (trows tc))]> T) = [].
Proof.
  unfold catalogue_rows. rewrite lookup_insert_eq. cbn [trows].
  induction (trows tc) as [|r rows IH]; [done|].
  unfold row_matches in *.
  destruct (decide (assoc "recommenderindexname" (slot_of tc r) = Some (VStr lit)))
    as [Hm|Hm].
  - rewrite filter_cons_False; [done|].
    rewrite bool_decide_eq_true_2 by done. done.
  - rewrite filter_cons_True by (by rewrite bool_decide_eq_false_2).
    simpl. rewrite filter_cons_False; [done|].
    unfold slot_of, colnames in *. simpl. done.
Qed.

Lemma getRecInfo_Ok (recindexname method : string) (w w' : World) :
  getRecInfo recindexname w = Ok method w' →
  w' = w ∧ catalogue_rows recindexname (tables w) ≠ [].
Proof.
  unfold getRecInfo.
  destruct (catalogue_rows recindexname (tables w)) as [|sl rest]; [done|].
  destruct (getTupleString sl "method"); [|done].
  by intros [= <- <-].
Qed.

(** The drop handler goes through whenever the recommender resolves and
    its index table can be scanned, whatever is left of its cells. *)
Lemma drop_recommender_run (dropstmt : DropRecStmt) (w : World)
      (method : string) (tc t : table) :
  let recname := Str.lower (relname (recommender dropstmt)) in
  let names := stored_cells method t ≫= cell_names in
  tables w !! "recmodelscatalogue" = Some tc →
  getRecInfo (recname +:+ "Index") w = Ok method w →
  tables w !! Str.lower (recname +:+ "index") = Some t →
  (∀ n, n ∈ names → Str.lower n ≠ "recmodelscatalogue") →
  ∃ w' l,
    drop_recommender dropstmt w = Ok tt w'
    ∧ ticks w' = ticks w
    ∧ log w' = log w ++ l
    ∧ statements l
      = [EvCursor (SELECT_STAR (recname +:+ "index"))]
        ++ drop_statements names
        ++ [EvUtility (DROP_TABLE (recname +:+ "index"));
            EvQuery (DELETE_WHERE "recmodelscatalogue" "recommenderindexname"
                                  (recname +:+ "Index"))]
    ∧ (stored_cells method t = [] →
       EvReport WARNING (mkError ERRCODE_INVALID_SCHEMA_NAME
                           ("failed to find cells for recommender " +:+ recname)) ∈ l)
    ∧ (∀ n, n ∈ names → tables w' !! Str.lower n = None)
    ∧ tables w' !! Str.lower (recname +:+ "index") = None
    ∧ catalogue_rows (recname +:+ "Index") (tables w') = []
    ∧ (∀ k, k ∉ Str.lower <$> names → k ≠ Str.lower (recname +:+ "index") →
            k ≠ "recmodelscatalogue" → tables w' !! k = tables w !! k).
Proof.
  intros recname names Hcat Hinfo Hidx Hnames.
  pose proof (getRecInfo_Ok _ _ _ _ Hinfo) as [_ Hknown].
  pose proof (catalogue_rows_in _ _ _ Hcat Hknown) as Hcol.
  assert (Str.lower (recname +:+ "index") ≠ "recmodelscatalogue") as Hic.
  { intros E. pose proof (StrFacts.lower_index_last recname) as Hl.
    by rewrite E in Hl. }
  set (cur := EvCursor (SELECT_STAR (recname +:+ "index"))).
  set (warn := EvReport WARNING
                 (mkError ERRCODE_INVALID_SCHEMA_NAME
                          ("failed to find cells for recommender " +:+ recname))).
  set (warnl := if bool_decide (stored_cells method t = []) then [warn] else []).
  set (w2 := mkWorld (tables w) (ticks w) ((log w ++ [cur]) ++ warnl)).
  destruct (drop_loop_run (stored_cells method t) w2)
    as (w3 & Hloop & Ht3 & (l3 & Hl3 & Hs3 & Hr3) & HT3).
  destruct (drop_one (recname +:+ "index") w3)
    as (w4 & Hdrop & Ht4 & (l4 & Hl4 & Hs4 & Hr4) & HT4).
  fold names in Hs3, HT3.
  assert (tables w4 !! "recmodelscatalogue" = Some tc) as Hcat4.
  { rewrite HT4, bool_decide_eq_false_2.
    - rewrite HT3, bool_decide_eq_false_2; [done|].
      intros Hin. apply list_elem_of_fmap in Hin as (n & Hn & Hin).
      by apply (Hnames n).
    - intros Hin. apply list_elem_of_singleton in Hin. by apply Hic. }
  set (del := DELETE_WHERE "recmodelscatalogue" "recommenderindexname"
                           (recname +:+ "Index")).
  set (tc' := mkTable (tcols tc) (tpkey tc)
                (filter (fun r => row_matches tc "recommenderindexname"
                                              (recname +:+ "Index") r = false)
                        (trows tc))).
  assert (recathon_queryExecute del w4
          = Ok tt (with_tables (<["recmodelscatalogue" := tc']> (tables w4))
                               (logged (EvQuery del) w4))) as Hdel.
  { unfold recathon_queryExecute, del. run_step.
    change (Str.lower "recmodelscatalogue") with "recmodelscatalogue".
    change (Str.lower "recommenderindexname") with "recommenderindexname".
    rewrite Hcat4. cbn. by rewrite bool_decide_eq_true_2. }
  exists (with_tables (<["recmodelscatalogue" := tc']> (tables w4))
                      (logged (EvQuery del) w4)),
         ([cur] ++ warnl ++ l3 ++ l4 ++ [EvQuery del]).
  split_and!.
  - unfold drop_recommender. fold recname.
    unfold relationExists, recommenderExists. run_step.
    rewrite Hcat. rewrite bool_decide_eq_true_2 by eauto. cbn.
    rewrite bool_decide_eq_true_2 by done. cbn.
    rewrite Hinfo.
    unfold recathon_queryStart. run_step. rewrite Hidx.
    unfold recathon_queryEnd, freeCellList. run_step.
    fold (stored_cells method t). fold cur. fold warn.
    unfold w2, warnl in Hloop.
    destruct (bool_decide (stored_cells method t = [])) eqn:Hnil; cbn;
      rewrite ?app_nil_r in Hloop; rewrite Hloop, Hdrop; exact Hdel.
  - cbn. by rewrite Ht4, Ht3.
  - cbn. rewrite Hl4, Hl3. unfold w2. cbn. by rewrite <-!app_assoc.
  - unfold statements in *. rewrite !filter_app, Hs3, Hs4.
    assert (filter (fun e => is_statement e) warnl = []) as ->
      by (unfold warnl; by case_bool_decide).
    done.
  - intros Hnil. unfold warnl. rewrite bool_decide_eq_true_2 by done.
    apply elem_of_app. right. apply elem_of_app. left. by left.
  - intros n Hn. cbn.
    rewrite lookup_insert_ne by (intros E; by apply (Hnames n)).
    rewrite HT4. case_bool_decide; [done|].
    rewrite HT3. rewrite bool_decide_eq_true_2; [done|].
    by apply list_elem_of_fmap_2.
  - cbn. rewrite lookup_insert_ne by done.
    rewrite HT4. rewrite bool_decide_eq_true_2; [done|]. by left.
  - cbn. apply catalogue_rows_deleted.
  - intros k Hk1 Hk2 Hk3. cbn.
    rewrite lookup_insert_ne by done.
    rewrite HT4, bool_decide_eq_false_2.
    + by rewrite HT3, bool_decide_eq_false_2.
    + intros Hin. by apply list_elem_of_singleton in Hin.
Qed.


(** What a drop that went through tells about the world it started in. *)
Lemma drop_recommender_Ok (dropstmt : DropRecStmt) (w w' : World) :
  drop_recommender dropstmt w = Ok tt w' →
  let recname := Str.lower (relname (recommender dropstmt)) in
  ∃ method tc t,
    tables w !! "recmodelscatalogue" = Some tc
    ∧ getRecInfo (recname +:+ "Index") w = Ok method w
    ∧ tables w !! Str.lower (recname +:+ "index") = Some t
    ∧ (∀ n, n ∈ stored_cells method t ≫= cell_names →
            Str.lower n ≠ "recmodelscatalogue").
Proof.
  intros Hrun recname. revert Hrun.
  unfold drop_recommender. fold recname.
  unfold relationExists, recommenderExists. run_step.
  destruct (tables w !! "recmodelscatalogue") as [tc|] eqn:Hcat; cbn; [|done].
  case_bool_decide as Hknown; cbn; [|done].
  destruct (getRecInfo (recname +:+ "Index") w) as [method w0|] eqn:Hinfo; [|done].
  destruct (getRecInfo_Ok _ _ _ _ Hinfo) as [-> _].
  unfold recathon_queryStart. run_step.
  destruct (tables w !! Str.lower (recname +:+ "index")) as [t|] eqn:Hidx; cbn; [|done].
  unfold recathon_queryEnd, freeCellList. run_step.
  fold (stored_cells method t).
  intros Hrun. exists method, tc, t. split_and!; try done.
  intros n Hn Hfold.
  match type of Hrun with
  | match ?m ?w2 with _ => _ end = _ =>
      destruct (m w2) as [[] w2'|] eqn:Hwarn; [|done]
  end.
  assert (tables w2' = tables w) as HT2.
  { revert Hwarn. case_bool_decide; by intros [= <-]. }
  destruct (drop_loop_run (stored_cells method t) w2')
    as (w3 & Hloop & _ & _ & HT3).
  rewrite Hloop in Hrun.
  destruct (drop_one (recname +:+ "index") w3) as (w4 & Hdrop & _ & _ & HT4).
  rewrite Hdrop in Hrun.
  apply delete_where_Ok in Hrun as (tc4 & Hcat4 & _).
  change (Str.lower "recmodelscatalogue") with "recmodelscatalogue" in Hcat4.
  rewrite HT4 in Hcat4. case_bool_decide; [done|].
  rewrite HT3, bool_decide_eq_true_2 in Hcat4; [done|].
  rewrite <-Hfold. by apply list_elem_of_fmap_2.
Qed.

(** A drop that went through, summed up: where it started and what it
    left. *)
Lemma drop_summary (dropstmt : DropRecStmt) (w w' : World) :
  drop_recommender dropstmt w = Ok tt w' →
  let recname := Str.lower (relname (recommender dropstmt)) in
  ∃ method t,
    getRecInfo (recname +:+ "Index") w = Ok method w
    ∧ tables w !! Str.lower (recname +:+ "index") = Some t
    ∧ (∀ n, n ∈ stored_cells method t ≫= cell_names → tables w' !! Str.lower n = None)
    ∧ tables w' !! Str.lower (recname +:+ "index") = None
    ∧ catalogue_rows (recname +:+ "Index") (tables w') = []
    ∧ statements (drop (List.length (log w)) (log w'))
      = [EvCursor (SELECT_STAR (recname +:+ "index"))]
        ++ drop_statements (stored_cells method t ≫= cell_names)
        ++ [EvUtility (DROP_TABLE (recname +:+ "index"));
            EvQuery (DELETE_WHERE "recmodelscatalogue" "recommenderindexname"
                                  (recname +:+ "Index"))].
Proof.
  simpl. intros Hrun.
  destruct (drop_recommender_Ok _ _ _ Hrun) as (method & tc & t & Hcat & Hinfo & Hidx & Hn).
  destruct (drop_recommender_run dropstmt w method tc t Hcat Hinfo Hidx Hn)
    as (w'' & l & Hrun' & _ & Hl & Hs & _ & Hgone & Hi & Hrow & _).
  rewrite Hrun in Hrun'. injection Hrun' as <-.
  exists method, t. split_and!; try done.
  by rewrite Hl, drop_app_length.
Qed.


(** ** Reading logs *)

Lemma populate_routine_family (method : recMethod) :
  ∃ f, populate_routine (family_of method) method = Some f.
Proof. destruct method; simpl; eauto. Qed.

Lemma cell_events_populate fam recStmt method numatts st (b : built_cell) f :
  populate_routine fam method = Some f →
  populate_results (cell_events fam recStmt method numatts st b) = [bc_ratings b]
  ∧ populate_stats (cell_events fam recStmt method numatts st b) = [st]
  ∧ precompute_calls (cell_events fam recStmt method numatts st b) = []
  ∧ clock_reads (cell_events fam recStmt method numatts st b) = [bc_time b]
  ∧ created (cell_events fam recStmt method numatts st b)
    = cell_artifacts fam (relname (relation recStmt)) b.
Proof.
  intros Hf. unfold cell_events, cell_artifacts, model_names. rewrite Hf.
  by destruct fam.
Qed.

Lemma cells_events_populate fam recStmt method numatts st (bs : list built_cell) f :
  populate_routine fam method = Some f →
  populate_results (bs ≫= cell_events fam recStmt method numatts st) = bc_ratings <$> bs
  ∧ populate_stats (bs ≫= cell_events fam recStmt method numatts st)
    = (fun _ => st) <$> bs
  ∧ precompute_calls (bs ≫= cell_events fam recStmt method numatts st) = []
  ∧ clock_reads (bs ≫= cell_events fam recStmt method numatts st) = bc_time <$> bs
  ∧ created (bs ≫= cell_events fam recStmt method numatts st)
    = bs ≫= cell_artifacts fam (relname (relation recStmt)).
Proof.
  intros Hf. induction bs as [|b bs (IH1 & IH2 & IH3 & IH4 & IH5)]; [done|].
  destruct (cell_events_populate fam recStmt method numatts st b f Hf)
    as (H1 & H2 & H3 & H4 & H5).
  rewrite !bind_cons.
  unfold populate_results, populate_stats, precompute_calls, clock_reads, created in *.
  rewrite !omap_app, filter_app, H1, H2, H3, H4, H5, IH1, IH2, IH3, IH4, IH5.
  done.
Qed.

Lemma statements_silent (l : list event) :
  Forall statement_or_report l →
  populate_results l = [] ∧ populate_stats l = [] ∧ precompute_calls l = []
  ∧ clock_reads l = [].
Proof.
  induction 1 as [|e l He _ (IH1 & IH2 & IH3 & IH4)]; [done|].
  unfold populate_results, populate_stats, precompute_calls, clock_reads in *.
  destruct e; try done; simpl; rewrite ?IH1, ?IH2, ?IH4; split_and!; try done;
    by rewrite filter_cons_False by (by intros []).
Qed.

Lemma precompute_events_silent fam recStmt method st :
  populate_results (precompute_events fam recStmt method st) = []
  ∧ populate_stats (precompute_events fam recStmt method st) = []
  ∧ clock_reads (precompute_events fam recStmt method st) = []
  ∧ precompute_calls (precompute_events fam recStmt method st)
    = precompute_events fam recStmt method st.
Proof. unfold precompute_events. destruct fam; repeat case_bool_decide; done. Qed.

Lemma view_in_artifacts (fam : family) (base : string) (b : built_cell) :
  view_name base (bc_time b) ∈ cell_artifacts fam base b.
Proof. unfold cell_artifacts. apply elem_of_app. right. by left. Qed.

(** Distinct artifact names need distinct clock suffixes. *)
Lemma stamps_distinct (fam : family) (base : string) (bs : list built_cell) :
  NoDup (bs ≫= cell_artifacts fam base) → NoDup (stamp <$> (bc_time <$> bs)).
Proof.
  induction bs as [|b bs IH]; [constructor|].
  rewrite bind_cons. intros (Hb & Hdisj & Hbs)%NoDup_app.
  simpl. constructor; [|by apply IH].
  intros Hin. apply list_elem_of_fmap in Hin as (ts & Hts & Hin).
  apply list_elem_of_fmap in Hin as (b' & -> & Hb').
  apply (Hdisj (view_name base (bc_time b))); [apply view_in_artifacts|].
  apply list_elem_of_bind. exists b'. split; [|done].
  unfold view_name. rewrite Hts. apply view_in_artifacts.
Qed.







Lemma stored_names (method : string) (t : table) :
  stored_cells method t ≫= cell_names
  = (slot_of t <$> trows t) ≫= names_in_row method.
Proof.
  unfold stored_cells. induction (trows t) as [|r rows IH]; [done|].
  simpl. f_equal; [|exact IH].
  unfold cell_names, names_in_row, read_cell. by case_bool_decide.
Qed.

(** The names read off a row are the texts of its artifact columns. *)
Lemma names_in_row_columns (method : string) (sl : slot) (n : string) :
  n ∈ names_in_row method sl
  ↔ ∃ col, col ∈ artifact_columns method ∧ getTupleString sl col = Some n.
Proof.
  unfold names_in_row, artifact_columns. rewrite list_elem_of_omap.
  case_bool_decide; split.
  - intros (x & Hx & Hn). simpl in Hn. subst x.
    repeat (apply elem_of_cons in Hx as [Hx|Hx]); try (by apply elem_of_nil in Hx);
      eexists; (split; [|symmetry; exact Hx]); set_solver.
  - intros (col & Hcol & Hn). exists (Some n). split; [|done].
    rewrite <-Hn. clear Hn.
    repeat (apply elem_of_cons in Hcol as [->|Hcol]);
      first [by apply elem_of_nil in Hcol | by left | by right; left
            | by right; right; left].
  - intros (x & Hx & Hn). simpl in Hn. subst x.
    repeat (apply elem_of_cons in Hx as [Hx|Hx]); try (by apply elem_of_nil in Hx);
      try discriminate Hx;
      eexists; (split; [|symmetry; exact Hx]); set_solver.
  - intros (col & Hcol & Hn). exists (Some n). split; [|done].
    rewrite <-Hn. clear Hn.
    repeat (apply elem_of_cons in Hcol as [->|Hcol]);
      first [by apply elem_of_nil in Hcol | by left | by right; left
            | by right; right; left].
Qed.


(** ** The build handler as a whole *)

Section BuildFacts.

Context `{ModelingBackend}.
Variable wall_clock : nat → timeval.
Variable validateCreateRStmt :
  CreateRStmt → gmap string table → error + (list string * recMethod * Z).

Lemma create_models_family recStmt attr_list method numatts :
  create_models wall_clock recStmt attr_list method numatts
  = similarity wall_clock (family_of method) recStmt attr_list numatts method.
Proof. by destruct method. Qed.

Lemma build_Ok (recStmt : CreateRStmt) (w w' : World) :
  standard_ProcessUtility wall_clock validateCreateRStmt (T_CreateRStmt recStmt) w
  = Ok tt w' →
  ∃ attr_list method numatts w1,
    validateCreateRStmt recStmt (tables w) = inr (attr_list, method, numatts)
    ∧ create_tables recStmt attr_list method numatts w = Ok tt w1
    ∧ create_models wall_clock recStmt attr_list method numatts w1 = Ok tt w'.
Proof.
  simpl. intros Hrun.
  apply bind_Ok in Hrun as ([[attr_list method] numatts] & w0 & Hval & Hrun).
  unfold sanity_checks in Hval.
  destruct (validateCreateRStmt recStmt (tables w)) as [e|r] eqn:Hv; [done|].
  injection Hval as -> <-.
  apply bind_Ok in Hrun as ([] & w1 & Htab & Hmod).
  by exists attr_list, method, numatts, w1.
Qed.

(** Everything a build that went through has done, in one place: [w1]
    is the world after the "CREATE TABLES" block, [w2] the world in which
    the first cell starts. *)
Lemma build_summary (recStmt : CreateRStmt) (w w' : World) :
  standard_ProcessUtility wall_clock validateCreateRStmt (T_CreateRStmt recStmt) w
  = Ok tt w' →
  ∃ attr_list method numatts w1 w2 st bs infra,
    let fam := family_of method in
    let base := relname (relation recStmt) in
    validateCreateRStmt recStmt (tables w) = inr (attr_list, method, numatts)
    ∧ create_tables recStmt attr_list method numatts w = Ok tt w1
    ∧ tables w1 !! Str.lower (index_name base) = Some (fresh_index method attr_list)
    ∧ precompute fam recStmt method w1
      = Ok st (mkWorld (tables w1) (ticks w1)
                       (log w1 ++ precompute_events fam recStmt method st))
    ∧ log w1 = log w ++ infra
    ∧ Forall statement_or_report infra
    ∧ tables w2 = tables w1
    ∧ ticks w2 = ticks w
    ∧ log w2 = log w ++ infra ++ precompute_events fam recStmt method st
                     ++ (if bool_decide (0 < numatts)%Z
                         then [EvCursor (SELECT_DISTINCT attr_list
                                           (relname (usertable recStmt)))]
                         else [])
    ∧ cells_built wall_clock fam recStmt method numatts st bs w2 w'
    ∧ (if bool_decide (0 < numatts)%Z
       then ∃ t, Z.to_nat numatts ≤ List.length attr_list
                 ∧ tables w1 !! Str.lower (relname (usertable recStmt)) = Some t
                 ∧ Forall2 (cell_of_slot (take (Z.to_nat numatts) attr_list))
                           (select_distinct attr_list t) bs
                 ∧ select_distinct attr_list t ≠ []
       else ∃ n, bs = [mkBuilt (wall_clock (ticks w)) None n])
    ∧ st = backend_stats recStmt method (tables w1).
Proof.
  intros Hrun.
  apply build_Ok in Hrun as (attr_list & method & numatts & w1 & Hval & Htab & Hmod).
  rewrite create_models_family in Hmod.
  apply similarity_Ok in Hmod as (st & bs & Hpre & Hsim).
  pose proof (precompute_stats _ _ _ _ _ Hpre) as Hst.
  apply create_tables_Ok in Htab as Hfacts.
  destruct Hfacts as (Ht1 & (infra & Hl1 & Hinfra) & Hnew & Hidx & _ & _).
  cbv zeta in *.
  destruct (bool_decide (0 < numatts)%Z) eqn:Hn.
  - destruct Hsim as (t & Hlen & Ht & Hslots & Hbuilt & Hrows).
    exists attr_list, method, numatts, w1,
      (logged (EvCursor (SELECT_DISTINCT attr_list (relname (usertable recStmt))))
         (mkWorld (tables w1) (ticks w1)
                  (log w1 ++ precompute_events (family_of method) recStmt method st))),
      st, bs, infra.
    rewrite Hn. split_and!; try done.
    + cbn. rewrite Hl1. by rewrite <-!app_assoc.
    + by exists t.
  - destruct Hsim as (n & -> & Hbuilt).
    exists attr_list, method, numatts, w1,
      (mkWorld (tables w1) (ticks w1)
               (log w1 ++ precompute_events (family_of method) recStmt method st)),
      st, [mkBuilt (wall_clock (ticks w1)) None n], infra.
    rewrite Hn. split_and!; try done.
    + cbn. rewrite Hl1. by rewrite <-!app_assoc, app_nil_r.
    + exists n. by rewrite Ht1.
Qed.

End BuildFacts.

(** ** Relations a run leaves alone *)

Section Keeps.

Context `{ModelingBackend}.
Variable wall_clock : nat → timeval.
Variable validateCreateRStmt :
  CreateRStmt → gmap string table → error + (list string * recMethod * Z).
Variable k : string.
Variable t : table.

Lemma keeps_ret {A} (a : A) : keeps k t (mret a).
Proof. by intros w Hw. Qed.

Lemma keeps_error {A} (c : sqlstate) (msg : string) : keeps k t (@ereport_ERROR A c msg).
Proof. by intros w Hw. Qed.

Lemma keeps_emit (e : event) : keeps k t (emit e).
Proof. by intros w Hw. Qed.

Lemma keeps_bind {A B} (m : M A) (f : A → M B) :
  keeps k t m → (∀ a, keeps k t (f a)) → keeps k t (m ≫= f).
Proof.
  intros Hm Hf w Hw. rewrite bind_run. specialize (Hm w Hw).
  destruct (m w) as [a w1|e w1]; simpl in *; [by apply Hf|done].
Qed.

Lemma keeps_for_each {A} (body : A → M unit) (xs : list A) :
  (∀ x, x ∈ xs → keeps k t (body x)) → keeps k t (for_each body xs).
Proof.
  induction xs as [|x xs IH]; intros Hbody; [apply keeps_ret|].
  simpl. apply keeps_bind; [apply Hbody; by left|].
  intros _. apply IH. intros y Hy. apply Hbody. by right.
Qed.

Lemma keeps_create ine name cols pkey :
  keeps k t (recathon_utilityExecute (CREATE_TABLE ine name cols pkey)).
Proof.
  intros w Hw. unfold recathon_utilityExecute. run_step.
  destruct (negb _); cbn; [done|].
  destruct (tables w !! Str.lower name) as [t'|] eqn:E; cbn.
  - by destruct ine.
  - rewrite lookup_insert_ne; [done|]. intros <-. by rewrite Hw in E.
Qed.

Lemma keeps_insert name vals :
  Str.lower name ≠ k → keeps k t (recathon_queryExecute (INSERT_INTO name vals)).
Proof.
  intros Hne w Hw. unfold recathon_queryExecute. run_step.
  destruct (mapM read_value vals) as [row|]; cbn; [|done].
  destruct (tables w !! Str.lower name) as [t'|]; cbn; [|done].
  destruct (_ =? _); cbn; [|done]. by rewrite lookup_insert_ne.
Qed.

Lemma keeps_sprintf size text : keeps k t (sprintf size text).
Proof. unfold sprintf. case_bool_decide; [apply keeps_ret|apply keeps_error]. Qed.

Lemma keeps_copy_names attList n : keeps k t (copy_names attList n).
Proof.
  revert attList. induction n as [|n IH]; intros [|colname next]; simpl;
    try apply keeps_ret; try apply keeps_error.
  apply keeps_bind; [apply keeps_sprintf|]. intros _.
  apply keeps_bind; [apply IH|]. intros rest. apply keeps_ret.
Qed.

Lemma keeps_append_rows name rows :
  Str.lower name ≠ k → keeps k t (append_rows name rows).
Proof.
  intros Hne w Hw. unfold append_rows. run_step.
  destruct (tables w !! Str.lower name) as [t'|]; cbn; [|done].
  by rewrite lookup_insert_ne.
Qed.

Lemma keeps_queryStart q : keeps k t (recathon_queryStart q).
Proof.
  intros w Hw. unfold recathon_queryStart. run_step.
  destruct q as [cols from|from];
    destruct (tables w !! Str.lower from); cbn; try done.
  by destruct (forallb _ cols).
Qed.

Lemma keeps_gettimeofday : keeps k t (gettimeofday wall_clock).
Proof. by intros w Hw. Qed.

Lemma keeps_precompute fam recStmt method : keeps k t (precompute fam recStmt method).
Proof.
  intros w Hw. destruct (precompute_run fam recStmt method w) as (st & ->). done.
Qed.

Lemma keeps_call_cf f run (c : populate_call) :
  (∀ m, m ∈ pc_models c → Str.lower m ≠ k) → keeps k t (call_cf f run c).
Proof.
  intros Hm w Hw. unfold call_cf.
  rewrite bind_run. cbn.
  destruct (run c (tables w)) as [[n rows]|]; [|done].
  revert w Hw. change (keeps k t (emit (EvPopulate f c n);;
                                  for_each (fun m => append_rows m rows) (pc_models c);;
                                  mret n)).
  apply keeps_bind; [apply keeps_emit|]. intros _.
  apply keeps_bind; [|intros _; apply keeps_ret].
  apply keeps_for_each. intros m Hin. by apply keeps_append_rows, Hm.
Qed.

Lemma keeps_call_svd (c : populate_call) :
  (∀ m, m ∈ pc_models c → Str.lower m ≠ k) → keeps k t (call_svd c).
Proof.
  intros Hm w Hw. unfold call_svd.
  rewrite bind_run. cbn.
  destruct (SVDsimilarity c (tables w)) as [[[n urows] irows]|]; [|done].
  revert w Hw.
  change (keeps k t (emit (EvPopulate FSVDsimilarity c n);;
                     for_each (fun mr => append_rows mr.1 mr.2)
                              (zip (pc_models c) [urows; irows]);;
                     mret n)).
  apply keeps_bind; [apply keeps_emit|]. intros _.
  apply keeps_bind; [|intros _; apply keeps_ret].
  apply keeps_for_each. intros [m r] Hin. apply keeps_append_rows, Hm.
  apply list_elem_of_lookup in Hin as (i & Hi).
  apply lookup_zip_with_Some in Hi as (? & ? & [= <- <-] & Hi & _).
  by eapply list_elem_of_lookup_2.
Qed.

Lemma keeps_populate fam recStmt method models numatts ctx st :
  (∀ m, m ∈ models → Str.lower m ≠ k) →
  keeps k t (populate fam recStmt method models numatts ctx st).
Proof.
  intros Hm. unfold populate.
  destruct fam; repeat case_bool_decide;
    first [apply keeps_call_cf | apply keeps_call_svd | apply keeps_ret]; done.
Qed.

(** A name that does not end in a digit and is not the index table is out
    of a cell's reach. *)
Lemma keeps_build_cell fam recStmt method numatts st ctx :
  (∀ c, Str.last_char k = Some c → Str.is_digit c = false) →
  k ≠ Str.lower (index_name (relname (relation recStmt))) →
  keeps k t (build_cell wall_clock fam recStmt method numatts st ctx).
Proof.
  intros Hdigit Hidx. unfold build_cell.
  assert (∀ b n, n ∈ cell_artifacts fam (relname (relation recStmt)) b →
                 Str.lower n ≠ k) as Hart.
  { intros b n Hn E.
    destruct (artifact_last fam (relname (relation recStmt)) b k) as (c & Hc & Hd).
    - rewrite <-E. by apply list_elem_of_fmap_2.
    - by rewrite (Hdigit c Hc) in Hd. }
  apply keeps_bind; [apply keeps_gettimeofday|]. intros ts.
  assert (∀ n, n ∈ cell_artifacts fam (relname (relation recStmt)) (mkBuilt ts ctx 0%Z) →
               Str.lower n ≠ k) as Hts by apply Hart.
  unfold cell_artifacts in Hts. simpl in Hts.
  apply keeps_bind; [apply keeps_for_each; intros; apply keeps_sprintf|]. intros _.
  apply keeps_bind.
  { apply keeps_for_each. intros.
    apply keeps_bind; [apply keeps_sprintf|]. intros _. apply keeps_create. }
  intros _.
  apply keeps_bind; [apply keeps_sprintf|]. intros _.
  apply keeps_bind; [apply keeps_create|]. intros _.
  apply keeps_bind; [apply keeps_sprintf|]. intros _.
  apply keeps_bind.
  { apply keeps_insert, Hts. apply elem_of_app. right. by left. }
  intros _. apply keeps_bind.
  { apply keeps_populate. intros m Hin. apply Hts. apply elem_of_app. by left. }
  intros n.
  apply keeps_bind; [apply keeps_for_each; intros; apply keeps_sprintf|]. intros _.
  apply keeps_bind; [apply keeps_sprintf|]. intros _.
  apply keeps_insert. by intros E.
Qed.

Lemma keeps_similarity fam recStmt attList numatts method :
  (∀ c, Str.last_char k = Some c → Str.is_digit c = false) →
  k ≠ Str.lower (index_name (relname (relation recStmt))) →
  keeps k t (similarity wall_clock fam recStmt attList numatts method).
Proof.
  intros Hdigit Hidx. unfold similarity.
  apply keeps_bind; [apply keeps_precompute|]. intros st.
  case_bool_decide; [|by apply keeps_build_cell].
  apply keeps_bind; [apply keeps_copy_names|].
  intros attnames. apply keeps_bind; [apply keeps_sprintf|]. intros _.
  apply keeps_bind; [apply keeps_queryStart|]. intros slots.
  apply keeps_bind.
  - apply keeps_for_each. intros sl _. apply keeps_bind.
    + unfold read_attvalues. destruct (mapM _ _); [apply keeps_ret|apply keeps_error].
    + intros vs. by apply keeps_build_cell.
  - intros _. apply keeps_bind; [apply keeps_ret|]. intros _.
    unfold free_attvalues. destruct slots; [apply keeps_error|apply keeps_ret].
Qed.

Lemma keeps_create_models recStmt attr_list method numatts :
  (∀ c, Str.last_char k = Some c → Str.is_digit c = false) →
  k ≠ Str.lower (index_name (relname (relation recStmt))) →
  keeps k t (create_models wall_clock recStmt attr_list method numatts).
Proof. intros. rewrite create_models_family. by apply keeps_similarity. Qed.

End Keeps.

(** The "CREATE TABLES" block leaves an existing properties table as it
    is: the check on the table skips both the creation and the insert. *)
Lemma keeps_create_tables recStmt attr_list method numatts (t : table) :
  keeps "recathonproperties" t (create_tables recStmt attr_list method numatts).
Proof.
  unfold create_tables.
  apply keeps_bind; [apply keeps_sprintf|]. intros _.
  apply keeps_bind; [apply keeps_create|]. intros _.
  apply keeps_bind; [apply keeps_sprintf|]. intros _.
  apply keeps_bind; [by apply keeps_insert|]. intros _.
  intros w Hw. rewrite bind_run. unfold relationExists.
  rewrite bool_decide_eq_true_2 by (by rewrite Hw). cbn.
  revert w Hw.
  change (keeps "recathonproperties" t
            (for_each (fun colname => sprintf 64 (column_text colname)) attr_list;;
             sprintf 1024 (index_create_text method (relname (relation recStmt)) attr_list);;
             recathon_utilityExecute
               (CREATE_TABLE false (relname (relation recStmt) +:+ "Index")
                             (index_schema method attr_list) ["systemId"]))).
  apply keeps_bind; [apply keeps_for_each; intros; apply keeps_sprintf|]. intros _.
  apply keeps_bind; [apply keeps_sprintf|]. intros _.
  apply keeps_create.
Qed.

Lemma properties_not_index (base : string) :
  "recathonproperties" ≠ Str.lower (index_name base).
Proof.
  intros E. pose proof (StrFacts.index_last base) as Hl.
  unfold index_name in E. by rewrite <-E in Hl.
Qed.

Lemma properties_no_digit (c : ascii) :
  Str.last_char "recathonproperties" = Some c → Str.is_digit c = false.
Proof. by intros [= <-]. Qed.

(** * The claims *)

Section Claims.

Context `{ModelingBackend}.
Variable wall_clock : nat → timeval.
Variable validateCreateRStmt :
  CreateRStmt → gmap string table → error + (list string * recMethod * Z).

Local Abbreviation ProcessUtility :=
  (standard_ProcessUtility wall_clock validateCreateRStmt).




(** C5: after a drop that went through, none of the model and view
    tables named in the rows of the index table exists: whatever a row of
    the index table held in a model-name or view-name column, the relation
    named by its text is gone.  The index table does not exist, and the
    recommender-list table has no row with its index-table name.  The
    statements were issued in this order: the scan of the index table, the
    drops of the tables named in each row, row by row, the drop of the index
    table, the delete from the recommender-list table by index-table
    name. *)
Theorem destroy_complete (dropstmt : DropRecStmt) (w w' : World) :
  ProcessUtility (T_DropRecStmt dropstmt) w = Ok tt w' →
  let recname := Str.lower (relname (recommender dropstmt)) in
  ∃ method t,
    getRecInfo (recname +:+ "Index") w = Ok method w
    ∧ tables w !! Str.lower (recname +:+ "index") = Some t
    ∧ (∀ r col v, r ∈ trows t → col ∈ artifact_columns method →
                  assoc col (slot_of t r) = Some v →
                  tables w' !! Str.lower (sql_text v) = None)
    ∧ tables w' !! Str.lower (recname +:+ "index") = None
    ∧ catalogue_rows (recname +:+ "Index") (tables w') = []
    ∧ statements (drop (List.length (log w)) (log w'))
      = [EvCursor (SELECT_STAR (recname +:+ "index"))]
        ++ drop_statements
             ((slot_of t <$> trows t)
                ≫= (fun sl => omap (getTupleString sl) (artifact_columns method)))
        ++ [EvUtility (DROP_TABLE (recname +:+ "index"));
            EvQuery (DELETE_WHERE "recmodelscatalogue" "recommenderindexname"
                                  (recname +:+ "Index"))].
Proof.
  intros Hrun.
  destruct (drop_summary dropstmt w w' Hrun)
    as (method & t & Hinfo & Hidx & Hgone & Hi & Hrow & Hs).
  cbv zeta. exists method, t. split_and!; try done.
  - intros r col v Hr Hcol Hn. apply Hgone. rewrite stored_names.
    apply list_elem_of_bind. exists (slot_of t r). split.
    + apply names_in_row_columns. exists col. split; [done|].
      unfold getTupleString. by rewrite Hn.
    + by apply list_elem_of_fmap_2.
  - rewrite Hs, stored_names. do 3 f_equal.
    induction (slot_of t <$> trows t) as [|sl sls IH]; [done|].
    simpl. f_equal; [|exact IH].
    unfold names_in_row, artifact_columns. case_bool_decide; simpl;
      repeat (destruct (getTupleString sl _)); reflexivity.
Qed.

(** C1: in a build that went through, the model-table and view-table
    names generated for its cells (the names its index rows record, one
    cell per clock read) are pairwise distinct, also as the folded relation
    names the engine keeps, and each names a relation that exists
    afterwards.  The builders themselves do nothing to keep names apart: a
    clock that repeats within its granularity makes a [CREATE TABLE] hit an
    existing relation, which cuts the build short.  So any two cells of a
    successful build read the clock with different suffixes. *)
Theorem artifact_names_distinct (recStmt : CreateRStmt) (w w' : World) :
  ProcessUtility (T_CreateRStmt recStmt) w = Ok tt w' →
  ∃ attr_list method numatts bs,
    let fam := family_of method in
    let base := relname (relation recStmt) in
    validateCreateRStmt recStmt (tables w) = inr (attr_list, method, numatts)
    ∧ tables w' !! Str.lower (index_name base)
      = Some (mkTable (fold_cols (index_schema method attr_list)) [Str.lower "systemId"]
                      (cell_row fam recStmt <$> bs))
    ∧ clock_reads (drop (List.length (log w)) (log w')) = bc_time <$> bs
    ∧ NoDup (bs ≫= cell_artifacts fam base)
    ∧ NoDup (Str.lower <$> (bs ≫= cell_artifacts fam base))
    ∧ (∀ n, n ∈ bs ≫= cell_artifacts fam base → is_Some (tables w' !! Str.lower n))
    ∧ NoDup (stamp <$> (bc_time <$> bs))
    ∧ (∀ i j, i < j < List.length bs →
              stamp (wall_clock (ticks w + i)) ≠ stamp (wall_clock (ticks w + j))).
Proof.
  intros Hrun.
  apply build_summary in Hrun
    as (attr_list & method & numatts & w1 & w2 & st & bs & infra & Hval & _ & Hidx
        & _ & _ & Hinfra & HT2 & Ht2 & Hl2 & Hbuilt & _).
  destruct Hbuilt as (_ & Htime & Hl & _ & Hnd & Hnew & Hrows & _).
  exists attr_list, method, numatts, bs. cbv zeta.
  destruct (populate_routine_family method) as (f & Hf).
  destruct (cells_events_populate (family_of method) recStmt method numatts st bs f Hf)
    as (_ & _ & _ & Hclock & _).
  destruct (statements_silent infra Hinfra) as (_ & _ & _ & Hc1).
  destruct (precompute_events_silent (family_of method) recStmt method st)
    as (_ & _ & Hc2 & _).
  assert (NoDup (bs ≫= cell_artifacts (family_of method) (relname (relation recStmt))))
    as Hnames by (by eapply NoDup_fmap_1).
  pose proof (stamps_distinct _ _ _ Hnames) as Hstamps.
  split_and!; try done.
  - rewrite (Hrows (fresh_index method attr_list)) by (by rewrite HT2). done.
  - rewrite Hl, Hl2, <-!app_assoc, drop_app_length.
    unfold clock_reads in *. rewrite !omap_app, Hc1, Hc2, Hclock.
    by case_bool_decide.
  - intros n Hn. apply Hnew. by apply list_elem_of_fmap_2.
  - intros i j [Hij Hj] Heq.
    destruct (lookup_lt_is_Some_2 bs i) as [bi Hbi]; [lia|].
    destruct (lookup_lt_is_Some_2 bs j) as [bj Hbj]; [lia|].
    assert (i = j); [|lia].
    eapply (NoDup_lookup _ i j (stamp (bc_time bi)) Hstamps).
    + by rewrite !list_lookup_fmap, Hbi.
    + rewrite !list_lookup_fmap, Hbj. simpl.
      by rewrite (Htime i bi Hbi), (Htime j bj Hbj), Ht2, Heq.
Qed.

(** C9: in a build that went through, the log of calls reads: the
    statements of the "CREATE TABLES" block, then the statistics call, then
    everything the cells do.  For the four CF methods the statistics call
    is made exactly once, on the item (or user) table and key and the
    rating table and value with no context argument, in the world left by
    "CREATE TABLES", before any clock read, table creation or populate call
    of a cell.  What it returns is what the backend's [vector_lengths]
    (cosine) or [pearson_info] (Pearson) gives for these relations as they
    are at that moment; every populate call of the build is handed these
    very statistics, and the number each cell records is the backend's
    answer to a call with them.  For SVD there is no statistics call at
    all. *)
Theorem statistics_precomputed_once (recStmt : CreateRStmt) (w w' : World) :
  ProcessUtility (T_CreateRStmt recStmt) w = Ok tt w' →
  ∃ attr_list method numatts w1 st before after,
    let fam := family_of method in
    let rt := relname (ratingtable recStmt) in
    let rv := ratingval recStmt in
    validateCreateRStmt recStmt (tables w) = inr (attr_list, method, numatts)
    ∧ create_tables recStmt attr_list method numatts w = Ok tt w1
    ∧ log w1 = log w ++ before
    ∧ precompute fam recStmt method w1
      = Ok st (mkWorld (tables w1) (ticks w1)
                       (log w1 ++ precompute_events fam recStmt method st))
    ∧ precompute_events fam recStmt method st
      = match method with
        | itemCosCF =>
            [EvPrecompute Fvector_lengths (relname (itemtable recStmt))
                          (itemkey recStmt) rt rv st]
        | itemPearCF =>
            [EvPrecompute Fpearson_info (relname (itemtable recStmt))
                          (itemkey recStmt) rt rv st]
        | userCosCF =>
            [EvPrecompute Fvector_lengths (relname (usertable recStmt))
                          (userkey recStmt) rt rv st]
        | userPearCF =>
            [EvPrecompute Fpearson_info (relname (usertable recStmt))
                          (userkey recStmt) rt rv st]
        | SVD => []
        end
    ∧ log w' = log w ++ before ++ precompute_events fam recStmt method st ++ after
    ∧ precompute_calls (drop (List.length (log w)) (log w'))
      = precompute_events fam recStmt method st
    ∧ clock_reads before = [] ∧ populate_results before = []
    ∧ precompute_calls after = []
    ∧ List.length (populate_stats after) = List.length (clock_reads after)
    ∧ Forall (fun s => s = st) (populate_stats after)
    ∧ populate_stats (drop (List.length (log w)) (log w')) = populate_stats after
    ∧ st = match method with
           | itemCosCF =>
               let '(num, ids, lengths) :=
                 vector_lengths (relname (itemtable recStmt)) (itemkey recStmt)
                                rt rv (tables w1) in
               StatsCos num ids lengths
           | itemPearCF =>
               let '(num, ids, avgs, pearsons) :=
                 pearson_info (relname (itemtable recStmt)) (itemkey recStmt)
                              rt rv (tables w1) in
               StatsPear num ids avgs pearsons
           | userCosCF =>
               let '(num, ids, lengths) :=
                 vector_lengths (relname (usertable recStmt)) (userkey recStmt)
                                rt rv (tables w1) in
               StatsCos num ids lengths
           | userPearCF =>
               let '(num, ids, avgs, pearsons) :=
                 pearson_info (relname (usertable recStmt)) (userkey recStmt)
                              rt rv (tables w1) in
               StatsPear num ids avgs pearsons
           | SVD => StatsUnset
           end
    ∧ ∃ bs, clock_reads after = bc_time <$> bs
            ∧ populate_results after = bc_ratings <$> bs
            ∧ Forall (fun b =>
                        ∃ T f,
                          (∀ k, k ∉ Str.lower <$> (bs ≫= cell_artifacts fam
                                                     (relname (relation recStmt))) →
                                k ≠ Str.lower (index_name (relname (relation recStmt))) →
                                T !! k = tables w1 !! k)
                          ∧ populate_routine fam method = Some f
                          ∧ backend_ratings f
                              (populate_args fam recStmt
                                 (model_names fam (relname (relation recStmt)) (bc_time b))
                                 numatts (bc_ctx b) st)
                              (cell_tables fam recStmt (bc_time b) T)
                            = Some (bc_ratings b)) bs.
Proof.
  intros Hrun.
  apply build_summary in Hrun
    as (attr_list & method & numatts & w1 & w2 & st & bs & infra & Hval & Htab & _
        & Hpre & Hl1 & Hinfra & HT2 & _ & Hl2 & Hbuilt & _ & Hst).
  destruct Hbuilt as (_ & _ & Hl & _ & _ & _ & _ & _ & _ & Hcalled).
  cbv zeta in *.
  set (cur := if bool_decide (0 < numatts)%Z
              then [EvCursor (SELECT_DISTINCT attr_list (relname (usertable recStmt)))]
              else []) in *.
  set (cells := bs ≫= cell_events (family_of method) recStmt method numatts st) in *.
  exists attr_list, method, numatts, w1, st, infra, (cur ++ cells).
  destruct (populate_routine_family method) as (f & Hf).
  destruct (cells_events_populate (family_of method) recStmt method numatts st bs f Hf)
    as (Hpr & Hps & Hpc & Hcl & _).
  fold cells in Hpr, Hps, Hpc, Hcl.
  destruct (statements_silent cur
              ltac:(unfold cur; case_bool_decide; by repeat constructor))
    as (Hc1 & _).
  destruct (statements_silent infra Hinfra) as (Hi1 & Hi2 & Hi3 & Hi4).
  destruct (precompute_events_silent (family_of method) recStmt method st)
    as (_ & Hp2 & _ & Hp4).
  assert (Forall statement_or_report cur) as Hcur
    by (unfold cur; case_bool_decide; by repeat constructor).
  destruct (statements_silent cur Hcur) as (_ & Hc2 & Hc3 & Hc4).
  assert (log w' = log w ++ infra
                   ++ precompute_events (family_of method) recStmt method st
                   ++ cur ++ cells) as Hlog
    by (rewrite Hl, Hl2; by rewrite <-!app_assoc).
  split_and!; try done.
  - by destruct method.
  - rewrite Hlog, drop_app_length. unfold precompute_calls in *.
    by rewrite !filter_app, Hi3, Hp4, Hc3, Hpc, app_nil_r.
  - unfold precompute_calls in *. by rewrite filter_app, Hc3, Hpc.
  - unfold populate_stats, clock_reads in *.
    rewrite !omap_app, Hc2, Hc4, Hps, Hcl. simpl. by rewrite !length_fmap.
  - unfold populate_stats in *. rewrite omap_app, Hc2, Hps. simpl.
    apply Forall_fmap. by apply Forall_true.
  - rewrite Hlog, drop_app_length. unfold populate_stats in *.
    by rewrite !omap_app, Hi2, Hp2.
  - exists bs. split_and!.
    + unfold clock_reads in *. by rewrite omap_app, Hc4, Hcl.
    + unfold populate_results in *. by rewrite omap_app, Hc1, Hpr.
    + eapply Forall_impl; [exact Hcalled|].
      intros b (T & HT & Hb). exists T, f. split_and!.
      * intros k Hk Hki. rewrite HT by done. by rewrite HT2.
      * done.
      * unfold cell_called in Hb. cbv zeta in Hb. by rewrite Hf in Hb.
Qed.




(** C6: the properties table and its default row are created only when
    the table is absent.  A build, whether it goes through or is cut short,
    leaves an existing properties table exactly as it found it; a build
    that goes through where there was none leaves the table with the single
    row [(0.5, 0, true)].  So after a first build every further build finds
    and keeps the same table: the row is neither duplicated nor rewritten. *)
Theorem properties_row_idempotent (recStmt : CreateRStmt) (w : World) :
  (∀ t, tables w !! "recathonproperties" = Some t →
        tables (final (ProcessUtility (T_CreateRStmt recStmt) w)) !! "recathonproperties"
        = Some t)
  ∧ (∀ w', tables w !! "recathonproperties" = None →
           ProcessUtility (T_CreateRStmt recStmt) w = Ok tt w' →
           tables w' !! "recathonproperties" = Some default_properties)
  ∧ (∀ w1 recStmt2,
       ProcessUtility (T_CreateRStmt recStmt) w = Ok tt w1 →
       ∃ t, tables w1 !! "recathonproperties" = Some t
            ∧ tables (final (ProcessUtility (T_CreateRStmt recStmt2) w1))
                !! "recathonproperties" = Some t
            ∧ (tables w !! "recathonproperties" = None → t = default_properties)).
Proof.
  assert (∀ r (w0 : World) t,
            tables w0 !! "recathonproperties" = Some t →
            tables (final (ProcessUtility (T_CreateRStmt r) w0)) !! "recathonproperties"
            = Some t) as Hkeep.
  { intros r w0 t. revert w0. fold (keeps "recathonproperties" t
                                      (ProcessUtility (T_CreateRStmt r))).
    simpl. apply keeps_bind.
    - intros w0 Hw0. unfold sanity_checks. by destruct (validateCreateRStmt _ _).
    - intros [[attr_list method] numatts].
      apply keeps_bind; [apply keeps_create_tables|]. intros _.
      apply keeps_create_models;
        [apply properties_no_digit|apply properties_not_index]. }
  assert (∀ (w0 w' : World),
            ProcessUtility (T_CreateRStmt recStmt) w0 = Ok tt w' →
            tables w' !! "recathonproperties"
            = Some (default default_properties (tables w0 !! "recathonproperties")))
    as Hmade.
  { intros w0 w' Hrun.
    apply build_Ok in Hrun as (attr_list & method & numatts & w1 & _ & Htab & Hmod).
    apply create_tables_Ok in Htab as (_ & _ & _ & _ & Hprops & _).
    pose proof (keeps_create_models wall_clock "recathonproperties" _
                  recStmt attr_list method numatts properties_no_digit
                  (properties_not_index _) w1 Hprops) as Hk.
    by rewrite Hmod in Hk. }
  split_and!.
  - intros t. apply Hkeep.
  - intros w' Hnone Hrun. apply Hmade in Hrun. by rewrite Hnone in Hrun.
  - intros w1 recStmt2 Hrun. apply Hmade in Hrun.
    eexists. split; [exact Hrun|]. split; [by apply Hkeep|].
    by intros ->.
Qed.

End Claims.

(** * The claims on the sample installation *)




Lemma destroy_complete_witness :
  sample_run (sample_drop "Foo") sample_built = Ok tt sample_dropped
  ∧ is_Some (tables sample_built !! "foomodel17000000001")
  ∧ tables sample_dropped !! "foomodel17000000001" = None
  ∧ tables sample_dropped !! "fooview17000000001" = None
  ∧ tables sample_dropped !! "fooindex" = None
  ∧ catalogue_rows "fooIndex" (tables sample_dropped) = [].
Proof.
  assert (sample_run (sample_drop "Foo") sample_built = Ok tt sample_dropped) as Hrun
    by (vm_compute; reflexivity).
  split; [exact Hrun|]. split; [vm_compute; eexists; reflexivity|].
  destruct (@destroy_complete sample_backend sample_clock sample_validate
              (mkDropRecStmt (mkRangeVar "Foo")) sample_built sample_dropped Hrun)
    as (method & t & Hinfo & Hidx & Hgone & Hi & Hrow & _).
  assert (getRecInfo "fooIndex" sample_built = Ok "itemcoscf" sample_built) as Hm
    by (vm_compute; reflexivity).
  assert (tables sample_built !! "fooindex"
          = Some (add_rows
                           [cell_row ItemCF sample_stmt
                              (mkBuilt (sample_clock 0) (Some (["region"], ["us"])) 7);
                            cell_row ItemCF sample_stmt
                              (mkBuilt (sample_clock 1) (Some (["region"], ["eu"])) 7)]
                           (fresh_index itemCosCF ["region"]))) as Ht
    by (vm_compute; reflexivity).
  change (Str.lower (relname (recommender (mkDropRecStmt (mkRangeVar "Foo"))))) with "foo" in *.
  change ("foo" +:+ "Index") with "fooIndex" in *.
  change (Str.lower ("foo" +:+ "index")) with "fooindex" in *.
  rewrite Hm in Hinfo. rewrite Ht in Hidx.
  apply (f_equal (fun r => match r with Ok a _ => a | Fatal _ _ => EmptyString end))
    in Hinfo.
  change ("itemcoscf" = method) in Hinfo. subst method.
  apply (inj Some) in Hidx. subst t.
  split_and!.
  - pose proof (Hgone (cell_row ItemCF sample_stmt
                         (mkBuilt (sample_clock 1) (Some (["region"], ["eu"])) 7))
                      "recmodelname" (VStr "fooModel17000000001")) as Hm1.
    change (Str.lower (sql_text (VStr "fooModel17000000001")))
      with "foomodel17000000001" in Hm1.
    apply Hm1.
    + right. left.
    + left.
    + vm_compute; reflexivity.
  - pose proof (Hgone (cell_row ItemCF sample_stmt
                         (mkBuilt (sample_clock 1) (Some (["region"], ["eu"])) 7))
                      "recviewname" (VStr "fooView17000000001")) as Hv1.
    change (Str.lower (sql_text (VStr "fooView17000000001")))
      with "fooview17000000001" in Hv1.
    apply Hv1.
    + right. left.
    + right. left.
    + vm_compute; reflexivity.
  - exact Hi.
  - exact Hrow.
Defined.

Lemma artifact_names_distinct_witness :
  sample_run (sample_create "foo" "itemcoscf") sample_world = Ok tt sample_built
  ∧ ∃ bs, clock_reads (drop (List.length (log sample_world)) (log sample_built))
          = bc_time <$> bs
          ∧ NoDup (stamp <$> (bc_time <$> bs))
          ∧ List.length bs = 2.
Proof.
  assert (sample_run (sample_create "foo" "itemcoscf") sample_world
          = Ok tt sample_built) as Hrun by (vm_compute; reflexivity).
  split; [exact Hrun|].
  destruct (@artifact_names_distinct sample_backend sample_clock sample_validate
              sample_stmt sample_world sample_built Hrun)
    as (attr_list & method & numatts & bs & _ & _ & Hclock & _ & _ & _ & Hstamps & _).
  exists bs. split; [exact Hclock|]. split; [exact Hstamps|].
  apply (f_equal (@List.length timeval)) in Hclock.
  rewrite length_fmap in Hclock. rewrite <-Hclock. vm_compute. reflexivity.
Defined.

(** With a clock that cannot tell two reads apart the second cell's
    [CREATE TABLE] fails and the build is cut short. *)
Example collision_is_detected :
  ∃ w, @standard_ProcessUtility sample_backend stuck_clock sample_validate
         (sample_create "foo" "itemcoscf") sample_world
       = Fatal (mkError ERRCODE_DUPLICATE_TABLE "relation already exists") w.
Proof. eexists. vm_compute. reflexivity. Qed.




Lemma properties_row_idempotent_witness :
  tables sample_world !! "recathonproperties" = None
  ∧ sample_run (sample_create "foo" "itemcoscf") sample_world = Ok tt sample_built
  ∧ tables sample_built !! "recathonproperties" = Some default_properties
  ∧ tables (final (sample_run (sample_create "bar" "svd") sample_built))
      !! "recathonproperties" = Some default_properties.
Proof.
  assert (tables sample_world !! "recathonproperties" = None) as Hnone
    by (vm_compute; reflexivity).
  assert (sample_run (sample_create "foo" "itemcoscf") sample_world
          = Ok tt sample_built) as Hrun by (vm_compute; reflexivity).
  pose proof (@properties_row_idempotent sample_backend sample_clock sample_validate
                sample_stmt sample_world) as (Hkeep & Hmade & Hnext).
  pose proof (Hmade sample_built Hnone Hrun) as Hprops.
  split; [exact Hnone|]. split; [exact Hrun|]. split; [exact Hprops|].
  exact (@proj1 _ _ (@properties_row_idempotent sample_backend sample_clock sample_validate
           (mkCreateRStmt (mkRangeVar "bar") (mkRangeVar "users") (mkRangeVar "items")
                          (mkRangeVar "ratings") "uid" "iid" "rating" "svd")
           sample_built) default_properties Hprops).
Defined.

Lemma statistics_precomputed_once_witness :
  sample_run (sample_create "foo" "itemcoscf") sample_world = Ok tt sample_built
  ∧ ∃ st, st = StatsCos 2 [1%Z; 2%Z] [S754_zero false; S754_zero false]
          ∧ precompute_calls (drop (List.length (log sample_world)) (log sample_built))
            = [EvPrecompute Fvector_lengths "items" "iid" "ratings" "rating" st]
          ∧ Forall (fun s => s = st)
                   (populate_stats (drop (List.length (log sample_world))
                                         (log sample_built))).
Proof.
  assert (sample_run (sample_create "foo" "itemcoscf") sample_world
          = Ok tt sample_built) as Hrun by (vm_compute; reflexivity).
  split; [exact Hrun|].
  destruct (@statistics_precomputed_once sample_backend sample_clock sample_validate
              sample_stmt sample_world sample_built Hrun)
    as (attr_list & method & numatts & w1 & st & before & after & Hval & _ & _ & _
        & Hcall & _ & Hcalls & _ & _ & _ & _ & Hall & Hsame & Hst & _).
  assert (method = itemCosCF) as ->.
  { assert (inr (["region"], itemCosCF, 1%Z) = inr (B:=list string * recMethod * Z)
                                                 (A:=error) (attr_list, method, numatts))
      as E by (rewrite <-Hval; reflexivity).
    by injection E. }
  exists st. rewrite Hcalls, Hsame. split; [exact Hst|]. split; [exact Hcall|exact Hall].
Defined.

